(** * Elliptic-curve plotting scripts: a shallow embedding

    The repository holds four stand-alone Python scripts under [scripts/]:
    [cubic-to-elliptic-curve.py], [plot-elliptic-curve.py],
    [plot-elliptic-curve-grid.py] and [point-addition.py].  Each one samples
    a grid with [np.ogrid], evaluates polynomial residuals on it with numpy
    broadcasting, hands the result to matplotlib and (for three of them)
    saves the figure.

    The embedding follows the scripts line by line:
    - Python [int]s are [Z], the integer constants of a script being those of
      magnitude at most [2^53] ([Py.constant]); numpy [float64] values are
      the binary64 numbers of [PrimFloat], with IEEE rounding, signed zeros,
      infinities and NaN;
    - numpy arrays are lists (1-D) and lists of rows (2-D), combined with the
      broadcasting rule of numpy, which raises [ValueError] on a mismatch;
    - a script is a computation in a state-and-exception monad over a
      [world]: the figure under construction, the files on disk and the
      timeline of what was written and displayed. *)

From Stdlib Require Import ZArith String Ascii Bool Lia.
From Stdlib Require Import Floats DecimalString QArith Qabs Qpower.
From Stdlib Require DecimalPos DecimalZ.
From Stdlib Require Import List.
Import ListNotations.

Set Implicit Arguments.
Set Warnings "-inexact-float".

(** ** Exceptions and results *)

Inductive exn : Type :=
| ValueError (msg : string)
| TypeError (msg : string)
| IndexError
| FileNotFoundError (path : string).

Inductive result (A : Type) : Type :=
| Ok (a : A)
| Raise (e : exn).

Arguments Ok {A} a.
Arguments Raise {A} e.

Definition rbind {A B : Type} (r : result A) (k : A -> result B) : result B :=
  match r with
  | Ok a => k a
  | Raise e => Raise e
  end.

Declare Scope result_scope.
Delimit Scope result_scope with result.
Notation "x <- r ;; k" := (rbind r (fun x => k))
  (at level 61, r at next level, right associativity) : result_scope.

(** ** Python scalars *)

Module Py.

(** An integer constant of a script.  A Python [int] is unbounded, but
    numpy reads one as a 64-bit integer and gives one that does not fit
    another meaning, which depends on its version (an array of objects, an
    [OverflowError] or a [TypeError]).  The constants of the scripts are
    taken among the integers of magnitude at most [2^53], which binary64
    holds exactly; every integer the scripts compute from them
    ([stop - start], the radicands of [P] and [Q]) fits 64 bits. *)
Record constant : Type := Constant {
  value : Z;
  in_range : (Z.abs value <=? 2 ^ 53)%Z = true
}.

Arguments Constant value in_range : clear implicits.

(** The conversion of a 64-bit integer to float64: the nearest binary64
    value, ties to even.  It is exact on a [constant]. *)
Definition float_of_int (n : Z) : float :=
  SF2Prim (binary_normalize prec emax n 0 false).

(** [str(n)], as an f-string substitutes a Python [int]. *)
Definition str (n : Z) : string :=
  NilZero.string_of_int (Z.to_int n).

(** The integer nearest to [m * 2^e], ties to even. *)
Definition round_half_even (m : positive) (e : Z) : Z :=
  match e with
  | Zneg p =>
      let d := Z.pow_pos 2 p in
      let q := Z.div (Zpos m) d in
      let r := Z.modulo (Zpos m) d in
      match Z.compare (2 * r) d with
      | Lt => q
      | Gt => q + 1
      | Eq => if Z.even q then q else q + 1
      end
  | _ => Zpos m * Z.pow 2 e
  end%Z.

(** [f'{x:.0f}'] for a float: no decimals, the sign kept even on a zero. *)
Definition format_0f (x : float) : string :=
  match Prim2SF x with
  | S754_nan => "nan"
  | S754_infinity s => if s then "-inf" else "inf"
  | S754_zero s => if s then "-0" else "0"
  | S754_finite s m e =>
      ((if s then "-" else "") ++ str (round_half_even m e))%string
  end.

End Py.

Coercion Py.value : Py.constant >-> Z.

(** ** numpy: arrays, broadcasting, grids *)

Module Np.

Open Scope float_scope.

(** A 1-D array, and a 2-D array as the list of its rows. *)
Definition vector := list float.
Definition ndarray := list (list float).

Definition nrows (A : ndarray) : nat := length A.
Definition ncols (A : ndarray) : nat := length (hd [] A).
Definition shape (A : ndarray) : nat * nat := (nrows A, ncols A).

Definition get (A : ndarray) (i j : nat) : float := nth j (nth i A []) 0.

(** [A.ravel()]: the entries in row-major order. *)
Definition ravel (A : ndarray) : vector := concat A.

(** [arange(n)] as floats: [0., 1., ..., n-1.]. *)
Definition iota (n : nat) : vector :=
  map (fun k => Py.float_of_int (Z.of_nat k)) (seq 0 n).

Definition column (v : vector) : ndarray := map (fun u => [u]) v.
Definition row (v : vector) : ndarray := [v].

Definition tabulate (r c : nat) (f : nat -> nat -> float) : ndarray :=
  map (fun i => map (fun j => f i j) (seq 0 c)) (seq 0 r).

(** The broadcasting rule on one dimension: equal extents, or one of them
    is 1 and is stretched. *)
Definition broadcast_dim (m n : nat) : option nat :=
  if Nat.eqb m n then Some m
  else if Nat.eqb m 1 then Some n
  else if Nat.eqb n 1 then Some m
  else None.

(** Index into a dimension of extent [len] from the broadcast index [i]:
    a stretched dimension has stride 0. *)
Definition bidx (len i : nat) : nat := if Nat.eqb len 1 then 0%nat else i.

Definition bget (A : ndarray) (i j : nat) : float :=
  get A (bidx (nrows A) i) (bidx (ncols A) j).

Definition broadcast2 (f : float -> float -> float) (A B : ndarray)
  : result ndarray :=
  match broadcast_dim (nrows A) (nrows B), broadcast_dim (ncols A) (ncols B) with
  | Some r, Some c => Ok (tabulate r c (fun i j => f (bget A i j) (bget B i j)))
  | _, _ => Raise (ValueError "operands could not be broadcast together")
  end.

Definition broadcast1 (f : float -> float -> float) (u v : vector)
  : result vector :=
  match broadcast_dim (length u) (length v) with
  | Some n =>
      Ok (map (fun i => f (nth (bidx (length u) i) u 0) (nth (bidx (length v) i) v 0))
              (seq 0 n))
  | None => Raise (ValueError "operands could not be broadcast together")
  end.

(** Array-with-array arithmetic. *)
Definition add2 := broadcast2 PrimFloat.add.
Definition sub2 := broadcast2 PrimFloat.sub.
Definition add1 := broadcast1 PrimFloat.add.

(** Array-with-scalar arithmetic and unary operations: elementwise. *)
Definition map2 (f : float -> float) (A : ndarray) : ndarray := map (map f) A.
Definition mul_scalar2 (A : ndarray) (s : float) : ndarray := map2 (fun u => u * s) A.
Definition add_scalar2 (A : ndarray) (s : float) : ndarray := map2 (fun u => u + s) A.
Definition sub_scalar2 (A : ndarray) (s : float) : ndarray := map2 (fun u => u - s) A.
Definition neg2 (A : ndarray) : ndarray := map2 PrimFloat.opp A.

Definition scalar_mul1 (s : float) (v : vector) : vector := map (fun u => s * u) v.
Definition add_scalar1 (v : vector) (s : float) : vector := map (fun u => u + s) v.
Definition neg1 (v : vector) : vector := map PrimFloat.opp v.

(** The C library's [pow(x, n)] for an integer exponent [n], which numpy
    calls for [pow(x, 3)] and [x ** 3]: the power [x^n] rounded once, to the
    nearest binary64 value (ties to even), with the signs of C on zeros and
    infinities.  (The C standard leaves the last bit of [pow] to the
    library; glibc's [pow] returns this value at every abscissa of the grids
    and of [x_points] that the scripts hard-code, whereas the product
    [x * x * x], rounded twice, does not.) *)
Definition c_pow (x : float) (n : nat) : float :=
  match n with
  | O => 1
  | _ =>
      match Prim2SF x with
      | S754_finite s m e =>
          SF2Prim (binary_normalize prec emax
                     ((if s then Zneg m else Zpos m) ^ Z.of_nat n)
                     (e * Z.of_nat n) false)
      | S754_zero s => if s && Nat.odd n then (-0) else 0
      | S754_infinity s => if s && Nat.odd n then neg_infinity else infinity
      | S754_nan => nan
      end
  end.

(** [pow(x, n)] and [x ** n] on one float64 for an integer exponent: numpy
    squares for exponent 2 ([x * x]) and hands every other exponent to the
    C library. *)
Definition power (x : float) (n : nat) : float :=
  if Nat.eqb n 2 then x * x else c_pow x n.

Definition pow2d (A : ndarray) (n : nat) : ndarray := map2 (fun u => power u n) A.
Definition pow1d (v : vector) (n : nat) : vector := map (fun u => power u n) v.

(** [np.sqrt]: IEEE square root.  On a negative argument numpy warns
    ([RuntimeWarning]) and returns NaN; nothing is raised. *)
Definition sqrt (x : float) : float := PrimFloat.sqrt x.
Definition sqrt1 (v : vector) : vector := map sqrt v.

(** One axis of [np.ogrid[start:stop:nj]] with integer bounds: [n] samples
    [k * step + start], [step = (stop - start) / (n - 1)] (and [step = 1]
    when [n = 1]). *)
Definition ogrid_step (start stop : Z) (n : nat) : float :=
  if Nat.eqb n 1 then 1
  else Py.float_of_int (stop - start) / Py.float_of_int (Z.of_nat n - 1).

Definition ogrid_axis (start stop : Z) (n : nat) : vector :=
  map (fun k => k * ogrid_step start stop n + Py.float_of_int start) (iota n).

(** [np.ogrid[s0:e0:n0 j, s1:e1:n1 j]]: an open (sparse) grid, the first
    axis as an [n0 x 1] column and the second as a [1 x n1] row. *)
Definition ogrid (s0 e0 : Z) (n0 : nat) (s1 e1 : Z) (n1 : nat)
  : ndarray * ndarray :=
  (column (ogrid_axis s0 e0 n0), row (ogrid_axis s1 e1 n1)).

(** [np.linspace(start, stop, num)] with integer bounds: as [ogrid_axis],
    and the last sample is then overwritten by [stop]. *)
Definition linspace (start stop : Z) (num : nat) : vector :=
  let v := ogrid_axis start stop num in
  if Nat.ltb 1 num then removelast v ++ [Py.float_of_int stop] else v.

(** [ceil] of a float as a natural number (0 for what is not positive and
    finite). *)
Definition ceil_nat (x : float) : nat :=
  match Prim2SF x with
  | S754_finite false m e =>
      match e with
      | Zneg p => Z.to_nat ((Zpos m + Z.pow_pos 2 p - 1) / Z.pow_pos 2 p)
      | _ => Z.to_nat (Zpos m * Z.pow 2 e)
      end
  | _ => O
  end.

(** [np.arange(start, stop, step)] on floats: [ceil((stop - start) / step)]
    samples; the first two are [start] and [start + step], and the others
    are [start + k * delta] with [delta] the difference of the first two. *)
Definition arange (start stop step : float) : vector :=
  let n := ceil_nat ((stop - start) / step) in
  let delta := (start + step) - start in
  match n with
  | O => []
  | S O => [start]
  | _ => start :: (start + step)
           :: map (fun k => start + k * delta) (skipn 2 (iota n))
  end.

End Np.

(** ** Paths *)

Module Path.

Open Scope string_scope.

(** The text after the last occurrence of [c] in [s], and the text before
    it; [None] when [c] does not occur. *)
Fixpoint rsplit (c : ascii) (s : string) : option (string * string) :=
  match s with
  | EmptyString => None
  | String d t =>
      match rsplit c t with
      | Some (before, after) => Some (String d before, after)
      | None => if Ascii.eqb d c then Some ("", t) else None
      end
  end.

(** [os.path.dirname] of a relative path: empty for a bare file name. *)
Definition dirname (p : string) : string :=
  match rsplit "/" p with
  | Some (d, _) => d
  | None => ""
  end.

Definition basename (p : string) : string :=
  match rsplit "/" p with
  | Some (_, f) => f
  | None => p
  end.

(** The extension of the file name, without its dot. *)
Definition extension (p : string) : option string :=
  match rsplit "." (basename p) with
  | Some (_, e) => Some e
  | None => None
  end.

End Path.

(** ** matplotlib: figures, files, display *)

Module Plt.

Import Np.
Open Scope string_scope.
Open Scope list_scope.

(** An axes of the subplot grid, by its position. *)
Inductive axes : Type := Axes (r c : nat).

(** What the plotting calls leave on the figure, in call order. *)
Inductive artist : Type :=
| Subplots (nr nc : nat) (figsize : Z * Z) (sharex sharey : string)
| Contour (ax : axes) (X Y : vector) (Zs : ndarray) (levels : vector) (colors : string)
| Annotate (text : string) (xy xytext : float * float) (arrowstyle color : string)
| Plot (ax : axes) (xs ys : vector) (fmt label : string)
| SetTitle (ax : axes) (s : string)
| SetXLabel (ax : axes) (s : string)
| SetYLabel (ax : axes) (s : string)
| SetYLim (ax : axes) (bottom top : float)
| AxHLine (ax : axes)
| AxVLine (ax : axes)
| Grid (ax : axes)
| Legend (ax : axes)
| TightLayout.

Definition figure := list artist.

Inductive kind : Type := Raster | Vector.

Inductive format : Type := PNG | JPG | TIFF | WEBP | SVG | PDF | PS | EPS.

Definition kind_of (f : format) : kind :=
  match f with
  | PNG | JPG | TIFF | WEBP => Raster
  | SVG | PDF | PS | EPS => Vector
  end.

(** The output format [savefig] picks from the file name. *)
Definition format_of_extension (e : string) : option format :=
  if e =? "png" then Some PNG
  else if (e =? "jpg") || (e =? "jpeg") then Some JPG
  else if (e =? "tif") || (e =? "tiff") then Some TIFF
  else if e =? "webp" then Some WEBP
  else if e =? "svg" then Some SVG
  else if e =? "pdf" then Some PDF
  else if e =? "ps" then Some PS
  else if e =? "eps" then Some EPS
  else None.

(** A written file: its format and the figure it renders. *)
Record image : Type := Image { img_format : format; img_figure : figure }.

(** What the outside sees of a run, in time order. *)
Inductive io : Type :=
| Wrote (path : string) (img : image)
| Displayed (fig : figure).

Record world : Type := World {
  fig : figure;                       (* the current figure of this process *)
  dirs : list string;                 (* directories under the working directory *)
  files : list (string * image);      (* files under the working directory *)
  timeline : list io                  (* what this process wrote and showed *)
}.

Definition set_fig (w : world) (f : figure) : world :=
  World f (dirs w) (files w) (timeline w).

(** State over the world, exceptions that leave the world as it was when
    they were raised. *)
Definition M (A : Type) : Type := world -> result A * world.

Definition ret {A : Type} (a : A) : M A := fun w => (Ok a, w).

Definition bind {A B : Type} (m : M A) (k : A -> M B) : M B :=
  fun w =>
    match m w with
    | (Ok a, w') => k a w'
    | (Raise e, w') => (Raise e, w')
    end.

Definition lift {A : Type} (r : result A) : M A := fun w => (r, w).

Definition draw (a : artist) : M unit :=
  fun w => (Ok tt, set_fig w (fig w ++ [a])).

Fixpoint for_each {A : Type} (l : list A) (body : A -> M unit) : M unit :=
  match l with
  | [] => ret tt
  | a :: t => bind (body a) (fun _ => for_each t body)
  end.

Definition when (c : bool) (m : M unit) : M unit := if c then m else ret tt.

(** [axes[i, j]] on the [nr x nc] array of axes that
    [plt.subplots(nr, nc)] returns, for indices that are not negative:
    numpy raises [IndexError] out of bounds. *)
Definition subplot (nr nc i j : nat) : result axes :=
  if Nat.ltb i nr && Nat.ltb j nc then Ok (Axes i j) else Raise IndexError.

(** [ax.contour(X, Y, Z, levels, colors=...)] with 1-D [X] and [Y]: [Z]
    must be at least 2 x 2, [X] as long as [Z] has columns and [Y] as long
    as it has rows. *)
Definition contour (ax : axes) (X Y : vector) (Zs : ndarray)
           (levels : vector) (colors : string) : M unit :=
  if Nat.ltb (nrows Zs) 2 || Nat.ltb (ncols Zs) 2 then
    lift (Raise (TypeError "Input z must be at least a (2, 2) shaped array"))
  else if negb (Nat.eqb (length X) (ncols Zs)) then
    lift (Raise (TypeError "Length of x must match number of columns in z"))
  else if negb (Nat.eqb (length Y) (nrows Zs)) then
    lift (Raise (TypeError "Length of y must match number of rows in z"))
  else draw (Contour ax X Y Zs levels colors).

Fixpoint write_file (p : string) (img : image) (fs : list (string * image))
  : list (string * image) :=
  match fs with
  | [] => [(p, img)]
  | (q, old) :: t =>
      if q =? p then (p, img) :: t else (q, old) :: write_file p img t
  end.

Definition dir_exists (w : world) (d : string) : bool :=
  (d =? "") || existsb (String.eqb d) (dirs w).

(** [plt.savefig(path)]: the format comes from the extension ([png] when
    there is none); the directory must exist; the file is created or
    overwritten with the figure as it is now. *)
Definition savefig (path : string) : M unit :=
  fun w =>
    let (path', ext) :=
      match Path.extension path with
      | Some e => (path, e)
      | None => ((path ++ ".png")%string, "png")
      end in
    match format_of_extension ext with
    | None => (Raise (ValueError "Format is not supported"), w)
    | Some f =>
        if dir_exists w (Path.dirname path') then
          let img := Image f (fig w) in
          (Ok tt, World (fig w) (dirs w) (write_file path' img (files w))
                        (timeline w ++ [Wrote path' img]))
        else (Raise (FileNotFoundError path'), w)
    end.

(** [plt.show()]. *)
Definition show : M unit :=
  fun w => (Ok tt, World (fig w) (dirs w) (files w) (timeline w ++ [Displayed (fig w)])).

(** A run of a script: a fresh process (no figure, empty timeline) on the
    directories and files it finds. *)
Definition run (script : M unit) (ds : list string) (fs : list (string * image))
  : result unit * world :=
  script (World [] ds fs []).

End Plt.

Declare Scope plt_scope.
Delimit Scope plt_scope with plt.
Notation "x <- m ;; k" := (Plt.bind m (fun x => k))
  (at level 61, m at next level, right associativity) : plt_scope.
Notation "m ;; k" := (Plt.bind m (fun _ => k))
  (at level 61, right associativity) : plt_scope.

(** ** The scripts *)

Import Np Plt.

(** [v[i]] on a 1-D array. *)
Definition index (v : vector) (i : nat) : result float :=
  match nth_error v i with
  | Some u => Ok u
  | None => Raise IndexError
  end.

(** The sample resolution, [100j] in every [np.ogrid] call. *)
Definition resolution : nat := 100.

(** *** scripts/cubic-to-elliptic-curve.py *)

Module CubicToElliptic.
Section Script.

(** The constants at the top of the file, and [x_points]. *)
Variables (a b : Z) (y_max x_max : Z) (x_points : vector).

Definition ax1 : axes := Axes 0 0.

(** The three residual expressions, as functions of the arrays [y] and
    [x] they mention. *)
Section Expressions.
Variables (y x : ndarray).

(** [-y + pow(x, 3) + x * a + b] *)
Definition cubic_curve_of : result ndarray :=
  (t <- add2 (neg2 y) (pow2d x 3) ;;
   u <- add2 t (mul_scalar2 x (Py.float_of_int a)) ;;
   Ok (add_scalar2 u (Py.float_of_int b)))%result.

(** [y + pow(x, 3) + x * a + b] *)
Definition cubic_curve_neg_of : result ndarray :=
  (t <- add2 y (pow2d x 3) ;;
   u <- add2 t (mul_scalar2 x (Py.float_of_int a)) ;;
   Ok (add_scalar2 u (Py.float_of_int b)))%result.

(** [pow(y, 2) - pow(x, 3) - x * a - b] *)
Definition elliptic_curve_of : result ndarray :=
  (t <- sub2 (pow2d y 2) (pow2d x 3) ;;
   u <- sub2 t (mul_scalar2 x (Py.float_of_int a)) ;;
   Ok (sub_scalar2 u (Py.float_of_int b)))%result.
End Expressions.

(** [y, x = np.ogrid[-y_max:y_max:100j, -x_max:x_max:100j]] *)
Definition grid : ndarray * ndarray :=
  Np.ogrid (- y_max) y_max resolution (- x_max) x_max resolution.
Definition y : ndarray := fst grid.
Definition x : ndarray := snd grid.

Definition cubic_curve : result ndarray := cubic_curve_of y x.
Definition cubic_curve_neg : result ndarray := cubic_curve_neg_of y x.

(** The title of line 23. *)
Definition eq_title_cubic : string :=
  ("y = x^3 " ++ (if negb (a =? 0)%Z then "- " ++ Py.str a ++ "x" else "")
    ++ " " ++ (if negb (b =? 0)%Z then "- " ++ Py.str b else ""))%string.

Definition elliptic_curve : result ndarray := elliptic_curve_of y x.

(** [x_points**3 + a*x_points + b] *)
Definition radicands : result vector :=
  (t <- add1 (pow1d x_points 3) (scalar_mul1 (Py.float_of_int a) x_points) ;;
   Ok (add_scalar1 t (Py.float_of_int b)))%result.

Definition cubic_curve_points : result vector := radicands.
Definition cubic_curve_neg_points : result vector :=
  (t <- radicands ;; Ok (neg1 t))%result.
Definition elliptic_curve_points : result vector :=
  (t <- radicands ;; Ok (sqrt1 t))%result.

(** The body of the loop of lines 40-44 at index [i]. *)
Definition annotate_point (ccp ccnp ecp : vector) (i : nat) : M unit :=
  (xi <- lift (index x_points i) ;;
   e <- lift (index ecp i) ;;
   cn <- lift (index ccnp i) ;;
   draw (Annotate "" (xi, - e)%float (xi, cn) "->" "grey") ;;
   xi' <- lift (index x_points i) ;;
   e' <- lift (index ecp i) ;;
   c <- lift (index ccp i) ;;
   draw (Annotate "" (xi', e') (xi', c) "->" "grey"))%plt.

(** The title of line 54: here the [ax] term carries no minus sign. *)
Definition eq_title : string :=
  ("y^2 = x^3 " ++ (if negb (a =? 0)%Z then " " ++ Py.str a ++ "x" else "")
    ++ " " ++ (if negb (b =? 0)%Z then "- " ++ Py.str b else ""))%string.

(** Everything up to [plt.tight_layout()]. *)
Definition build : M unit :=
  (draw (Subplots 1 1 (8, 6)%Z "none" "none") ;;
   cc <- lift cubic_curve ;;
   ccn <- lift cubic_curve_neg ;;
   contour ax1 (ravel x) (ravel y) cc [0%float] "red" ;;
   contour ax1 (ravel x) (ravel y) ccn [0%float] "royalblue" ;;
   draw (SetTitle ax1 ("$" ++ eq_title_cubic ++ "$")) ;;
   ec <- lift elliptic_curve ;;
   contour ax1 (ravel x) (ravel y) ec [0%float] "black" ;;
   ccp <- lift cubic_curve_points ;;
   ccnp <- lift cubic_curve_neg_points ;;
   ecp <- lift elliptic_curve_points ;;
   for_each (seq 0 (length x_points)) (annotate_point ccp ccnp ecp) ;;
   draw (SetXLabel ax1 "x") ;;
   draw (SetYLabel ax1 "y") ;;
   draw (SetYLim ax1 (Py.float_of_int y_max) (Py.float_of_int (- y_max))) ;;
   draw (AxHLine ax1) ;;
   draw (AxVLine ax1) ;;
   draw (Grid ax1) ;;
   draw (SetTitle ax1 ("$" ++ eq_title ++ "$")) ;;
   draw TightLayout)%plt.

Definition script : M unit :=
  (build ;;
   savefig "docs/images/cubic-to-elliptic.png" ;;
   savefig "docs/images/cubic-to-elliptic.svg" ;;
   show)%plt.

End Script.

(** The constants the file hard-codes. *)
Definition a0 : Z := 0.
Definition b0 : Z := 7.
Definition y_max0 : Z := 15.
Definition x_max0 : Z := 4.
Definition x_points0 : vector := Np.arange (-1.6) 2 0.5.
Definition main : M unit := script a0 b0 y_max0 x_max0 x_points0.

End CubicToElliptic.

(** *** scripts/plot-elliptic-curve.py *)

Module PlotEllipticCurve.
Section Script.

Variables (a b : Z) (y_max x_max : Z).

Definition ax1 : axes := Axes 0 0.
Definition ax2 : axes := Axes 0 1.

Section Expressions.
Variables (y x : ndarray).

(** [y - pow(x, 3) - x * a - b] *)
Definition cubic_curve_of : result ndarray :=
  (t <- sub2 y (pow2d x 3) ;;
   u <- sub2 t (mul_scalar2 x (Py.float_of_int a)) ;;
   Ok (sub_scalar2 u (Py.float_of_int b)))%result.

(** [-y - pow(x, 3) - x * a - b] *)
Definition cubic_curve_neg_of : result ndarray :=
  (t <- sub2 (neg2 y) (pow2d x 3) ;;
   u <- sub2 t (mul_scalar2 x (Py.float_of_int a)) ;;
   Ok (sub_scalar2 u (Py.float_of_int b)))%result.

(** [pow(y, 2) - pow(x, 3) - x * a - b] *)
Definition elliptic_curve_of : result ndarray :=
  (t <- sub2 (pow2d y 2) (pow2d x 3) ;;
   u <- sub2 t (mul_scalar2 x (Py.float_of_int a)) ;;
   Ok (sub_scalar2 u (Py.float_of_int b)))%result.
End Expressions.

(** [y, x = np.ogrid[-y_max:y_max:100j, -x_max:x_max:100j]] *)
Definition grid : ndarray * ndarray :=
  Np.ogrid (- y_max) y_max resolution (- x_max) x_max resolution.
Definition y : ndarray := fst grid.
Definition x : ndarray := snd grid.

Definition cubic_curve : result ndarray := cubic_curve_of y x.
Definition cubic_curve_neg : result ndarray := cubic_curve_neg_of y x.

(** The title of line 30. *)
Definition eq_title_cubic : string :=
  ("y = x^3 " ++ (if negb (a =? 0)%Z then "- " ++ Py.str a ++ "x" else "")
    ++ " " ++ (if negb (b =? 0)%Z then "- " ++ Py.str b else ""))%string.

Definition elliptic_curve : result ndarray := elliptic_curve_of y x.

(** The title of line 46. *)
Definition eq_title : string :=
  ("y^2 = x^3 " ++ (if negb (a =? 0)%Z then "- " ++ Py.str a ++ "x" else "")
    ++ " " ++ (if negb (b =? 0)%Z then "- " ++ Py.str b else ""))%string.

Definition build : M unit :=
  (draw (Subplots 1 2 (16, 6)%Z "none" "none") ;;
   cc <- lift cubic_curve ;;
   ccn <- lift cubic_curve_neg ;;
   contour ax1 (ravel x) (ravel y) cc [0%float] "royalblue" ;;
   contour ax1 (ravel x) (ravel y) ccn [0%float] "red" ;;
   draw (SetXLabel ax1 "x") ;;
   draw (SetYLabel ax1 "y") ;;
   draw (AxHLine ax1) ;;
   draw (AxVLine ax1) ;;
   draw (Grid ax1) ;;
   draw (SetTitle ax1 ("$" ++ eq_title_cubic ++ "$")) ;;
   ec <- lift elliptic_curve ;;
   contour ax2 (ravel x) (ravel y) ec [0%float] "royalblue" ;;
   draw (SetXLabel ax2 "x") ;;
   draw (SetYLabel ax2 "y") ;;
   draw (AxHLine ax2) ;;
   draw (AxVLine ax2) ;;
   draw (Grid ax2) ;;
   draw (SetTitle ax2 ("$" ++ eq_title ++ "$")) ;;
   draw TightLayout)%plt.

Definition script : M unit :=
  (build ;;
   savefig "docs/images/both_curves.png" ;;
   savefig "docs/images/both_curves.svg" ;;
   show)%plt.

End Script.

Definition a0 : Z := 0.
Definition b0 : Z := 7.
Definition y_max0 : Z := 15.
Definition x_max0 : Z := 9.
Definition main : M unit := script a0 b0 y_max0 x_max0.

End PlotEllipticCurve.

(** *** scripts/plot-elliptic-curve-grid.py *)

Module PlotEllipticCurveGrid.
Section Script.

(** [a_values], [b_values] and the plotting bounds. *)
Variables (a_values b_values : vector) (y_max x_max : Z).

Definition grid : ndarray * ndarray :=
  Np.ogrid (- y_max) y_max resolution (- x_max) x_max resolution.
Definition y : ndarray := fst grid.
Definition x : ndarray := snd grid.

(** [enumerate(v)] *)
Definition enumerate (v : vector) : list (nat * float) :=
  combine (seq 0 (length v)) v.

(** [axes[i, j]]: [axes] is the 4 x 4 array of [plt.subplots(4, 4, ...)]. *)
Definition axes_at (i j : nat) : result axes := subplot 4 4 i j.

(** The first pair of loops: column titles on the first row, row labels
    on the first column. *)
Definition label_axes : M unit :=
  for_each (enumerate a_values) (fun '(i, a) =>
    for_each (enumerate b_values) (fun '(j, b) =>
      (when (Nat.eqb i 0)
         (ax <- lift (axes_at i j) ;;
          draw (SetTitle ax ("b=" ++ Py.format_0f b))) ;;
       when (Nat.eqb j 0)
         (ax <- lift (axes_at i j) ;;
          draw (SetYLabel ax ("a=" ++ Py.format_0f a))))%plt)).

(** [pow(y, 2) - pow(x, 3) - x * a - b] with [a] and [b] float64 entries
    of [a_values] and [b_values]. *)
Definition curve_of (y x : ndarray) (a b : float) : result ndarray :=
  (t <- sub2 (pow2d y 2) (pow2d x 3) ;;
   u <- sub2 t (mul_scalar2 x a) ;;
   Ok (sub_scalar2 u b))%result.

Definition curve (a b : float) : result ndarray := curve_of y x a b.

(** The second pair of loops. *)
Definition plot_curves : M unit :=
  for_each (enumerate a_values) (fun '(i, a) =>
    for_each (enumerate b_values) (fun '(j, b) =>
      (c <- lift (curve a b) ;;
       ax <- lift (axes_at i j) ;;
       contour ax (ravel x) (ravel y) c [0%float] "royalblue" ;;
       ax' <- lift (axes_at i j) ;;
       draw (Grid ax'))%plt)).

Definition build : M unit :=
  (draw (Subplots 4 4 (15, 15)%Z "col" "row") ;;
   label_axes ;;
   plot_curves ;;
   draw TightLayout)%plt.

Definition script : M unit :=
  (build ;;
   savefig "docs/images/elliptic_curves_grid.png" ;;
   savefig "docs/images/elliptic_curves_grid.svg" ;;
   show)%plt.

End Script.

(** The values laid along one side of the 4 x 4 array of subplots: the
    scripts of this family have at most four of them, as the file has. *)
Record values : Type := Values {
  entries : list float;
  fits : (length entries <=? 4)%nat = true
}.

Arguments Values entries fits : clear implicits.

Definition a_values0 : vector := Np.linspace (-2) 1 4.
Definition b_values0 : vector := Np.linspace (-1) 2 4.
Definition y_max0 : Z := 5.
Definition x_max0 : Z := 5.
Definition main : M unit := script a_values0 b_values0 y_max0 x_max0.

End PlotEllipticCurveGrid.

Coercion PlotEllipticCurveGrid.entries : PlotEllipticCurveGrid.values >-> list.

(** *** scripts/point-addition.py *)

Module PointAddition.
Section Script.

Variables (a b : Z) (x_max y_max : Z).

Definition ax1 : axes := Axes 0 0.

(** [pow(y, 2) - pow(x, 3) - x * a - b] *)
Definition elliptic_curve_of (y x : ndarray) : result ndarray :=
  (t <- sub2 (pow2d y 2) (pow2d x 3) ;;
   u <- sub2 t (mul_scalar2 x (Py.float_of_int a)) ;;
   Ok (sub_scalar2 u (Py.float_of_int b)))%result.

(** [y, x = np.ogrid[-y_max:y_max:100j, -x_max:x_max:100j]] *)
Definition grid : ndarray * ndarray :=
  Np.ogrid (- y_max) y_max resolution (- x_max) x_max resolution.
Definition y : ndarray := fst grid.
Definition x : ndarray := snd grid.

Definition elliptic_curve : result ndarray := elliptic_curve_of y x.

(** The radicands of [P] and [Q], in Python's integer arithmetic:
    [(-1) ** 3 + a * (-1) + b] and [2 ** 3 + a * 2 + b]. *)
Definition radicand_P : Z := ((-1) ^ 3 + a * (-1) + b)%Z.
Definition radicand_Q : Z := (2 ^ 3 + a * 2 + b)%Z.

(** [P = (-1, np.sqrt(...))], [Q = (2, np.sqrt(...))]; the abscissa is a
    Python [int].  [np.sqrt] reads its Python [int] as a 64-bit integer,
    which the radicands of a script's constants fit, and converts it to
    float64. *)
Definition P : Z * float := ((-1)%Z, Np.sqrt (Py.float_of_int radicand_P)).
Definition Q : Z * float := (2%Z, Np.sqrt (Py.float_of_int radicand_Q)).

Definition build : M unit :=
  (draw (Subplots 1 1 (8, 6)%Z "none" "none") ;;
   draw (SetTitle ax1 "Point addition") ;;
   ec <- lift elliptic_curve ;;
   contour ax1 (ravel x) (ravel y) ec [0%float] "royalblue" ;;
   draw (SetXLabel ax1 "x") ;;
   draw (SetYLabel ax1 "y") ;;
   draw (SetYLim ax1 (Py.float_of_int y_max) (Py.float_of_int (- y_max))) ;;
   draw (AxHLine ax1) ;;
   draw (AxVLine ax1) ;;
   draw (Grid ax1) ;;
   draw (Plot ax1 [Py.float_of_int (fst P)] [snd P] "ro" "P") ;;
   draw (Plot ax1 [Py.float_of_int (fst Q)] [snd Q] "go" "Q") ;;
   draw (Plot ax1 [Py.float_of_int (fst P); Py.float_of_int (fst Q)]
                  [snd P; snd Q] "k--" "P + Q") ;;
   draw (Legend ax1) ;;
   draw TightLayout)%plt.

(** The two [plt.savefig] lines of this file are commented out: the
    script only displays. *)
Definition script : M unit :=
  (build ;;
   show)%plt.

End Script.

Definition a0 : Z := -2.
Definition b0 : Z := 2.
Definition x_max0 : Z := 3.
Definition y_max0 : Z := 5.
Definition main : M unit := script a0 b0 x_max0 y_max0.

End PointAddition.

(** *** The four programs of the repository *)

(** A script with the constants it hard-codes left open: integer constants,
    the float64 array [x_points], and at most four [a_values] and
    [b_values]. *)
Inductive program : Type :=
| CubicToEllipticCurve (a b y_max x_max : Py.constant) (x_points : vector)
| PlotEllipticCurve (a b y_max x_max : Py.constant)
| PlotEllipticCurveGrid (a_values b_values : PlotEllipticCurveGrid.values)
                        (y_max x_max : Py.constant)
| PointAdditionPlot (a b x_max y_max : Py.constant).

Definition script_of (p : program) : M unit :=
  match p with
  | CubicToEllipticCurve a b ym xm ps => CubicToElliptic.script a b ym xm ps
  | PlotEllipticCurve a b ym xm => PlotEllipticCurve.script a b ym xm
  | PlotEllipticCurveGrid av bv ym xm => PlotEllipticCurveGrid.script av bv ym xm
  | PointAdditionPlot a b xm ym => PointAddition.script a b xm ym
  end.

Definition build_of (p : program) : M unit :=
  match p with
  | CubicToEllipticCurve a b ym xm ps => CubicToElliptic.build a b ym xm ps
  | PlotEllipticCurve a b ym xm => PlotEllipticCurve.build a b ym xm
  | PlotEllipticCurveGrid av bv ym xm => PlotEllipticCurveGrid.build av bv ym xm
  | PointAdditionPlot a b xm ym => PointAddition.build a b xm ym
  end.

(** The sampling bounds [(y_max, x_max)] of a program. *)
Definition bounds_of (p : program) : Z * Z :=
  match p with
  | CubicToEllipticCurve _ _ ym xm _ => (ym : Z, xm : Z)
  | PlotEllipticCurve _ _ ym xm => (ym : Z, xm : Z)
  | PlotEllipticCurveGrid _ _ ym xm => (ym : Z, xm : Z)
  | PointAdditionPlot _ _ xm ym => (ym : Z, xm : Z)
  end.

(** The programs as the files hard-code them. *)
Definition cubic_to_elliptic_curve_py : program :=
  CubicToEllipticCurve
    (Py.Constant CubicToElliptic.a0 eq_refl) (Py.Constant CubicToElliptic.b0 eq_refl)
    (Py.Constant CubicToElliptic.y_max0 eq_refl)
    (Py.Constant CubicToElliptic.x_max0 eq_refl) CubicToElliptic.x_points0.
Definition plot_elliptic_curve_py : program :=
  PlotEllipticCurve
    (Py.Constant PlotEllipticCurve.a0 eq_refl) (Py.Constant PlotEllipticCurve.b0 eq_refl)
    (Py.Constant PlotEllipticCurve.y_max0 eq_refl)
    (Py.Constant PlotEllipticCurve.x_max0 eq_refl).
Definition plot_elliptic_curve_grid_py : program :=
  PlotEllipticCurveGrid
    (PlotEllipticCurveGrid.Values PlotEllipticCurveGrid.a_values0 eq_refl)
    (PlotEllipticCurveGrid.Values PlotEllipticCurveGrid.b_values0 eq_refl)
    (Py.Constant PlotEllipticCurveGrid.y_max0 eq_refl)
    (Py.Constant PlotEllipticCurveGrid.x_max0 eq_refl).
Definition point_addition_py : program :=
  PointAdditionPlot
    (Py.Constant PointAddition.a0 eq_refl) (Py.Constant PointAddition.b0 eq_refl)
    (Py.Constant PointAddition.x_max0 eq_refl)
    (Py.Constant PointAddition.y_max0 eq_refl).

Definition repository : list program :=
  [cubic_to_elliptic_curve_py; plot_elliptic_curve_py;
   plot_elliptic_curve_grid_py; point_addition_py].

(** * Properties *)

(** ** Facts on binary64 arithmetic *)

Section FloatFacts.

Open Scope float_scope.

Lemma Prim2SF_zero : Prim2SF 0 = S754_zero false.
Proof. reflexivity. Qed.

Lemma Prim2SF_nan : Prim2SF nan = S754_nan.
Proof. reflexivity. Qed.

(** The square root of a negative number, or of minus infinity, is NaN. *)
Lemma sqrt_negative (r : float) : (r <? 0) = true -> PrimFloat.sqrt r = nan.
Proof.
  intros H. apply Prim2SF_inj.
  rewrite sqrt_spec, Prim2SF_nan.
  rewrite ltb_spec, Prim2SF_zero in H.
  destruct (Prim2SF r) as [s | s | | s m e]; try destruct s;
    simpl in *; try reflexivity; discriminate.
Qed.

Lemma opp_nan : - nan = nan.
Proof. reflexivity. Qed.

Lemma opp_involutive (u : float) : - - u = u.
Proof.
  apply Prim2SF_inj. rewrite !opp_spec.
  destruct (Prim2SF u) as [s | s | | s m e]; simpl;
    rewrite ?negb_involutive; reflexivity.
Qed.

Lemma mul_opp_opp (u : float) : (- u) * (- u) = u * u.
Proof.
  apply Prim2SF_inj. rewrite !mul_spec, !opp_spec.
  destruct (Prim2SF u) as [s | s | | s m e]; simpl; try reflexivity;
    destruct s; reflexivity.
Qed.

Lemma mul_comm (u v : float) : u * v = v * u.
Proof.
  apply Prim2SF_inj. rewrite !mul_spec. unfold SF64mul.
  destruct (Prim2SF u) as [s | s | | s m e], (Prim2SF v) as [t | t | | t n f];
    simpl; rewrite ?(xorb_comm s t), ?(Pos.mul_comm m n), ?(Z.add_comm e f);
    reflexivity.
Qed.

(** The square root of a number that is not negative is a number. *)
Lemma iter_pos_invariant {A : Type} (P : A -> Prop) (f : A -> A) :
  (forall x, P x -> P (f x)) -> forall n x, P x -> P (SpecFloat.iter_pos f n x).
Proof.
  intros Hf. induction n as [n IH | n IH |]; intros x Hx; cbn [SpecFloat.iter_pos]; auto.
Qed.

Lemma shr_1_nonneg (mrs : shr_record) : (0 <= shr_m mrs)%Z -> (0 <= shr_m (shr_1 mrs))%Z.
Proof.
  destruct mrs as [m r s]. cbn [shr_m]. intros H.
  destruct m as [| [p | p |] | p]; cbn; lia.
Qed.

Lemma shr_fexp_nonneg (m e : Z) (l : location) :
  (0 <= m)%Z -> (0 <= shr_m (fst (shr_fexp prec emax m e l)))%Z.
Proof.
  intros H. unfold shr_fexp, shr.
  assert (H0 : (0 <= shr_m (shr_record_of_loc m l))%Z)
    by (destruct l as [| []]; exact H).
  destruct (fexp prec emax (Zdigits2 m + e) - e)%Z; cbn [fst]; try exact H0.
  apply (iter_pos_invariant (fun r => (0 <= shr_m r)%Z)); [apply shr_1_nonneg | exact H0].
Qed.

Lemma round_nearest_even_nonneg (m : Z) (l : location) :
  (0 <= m)%Z -> (0 <= round_nearest_even m l)%Z.
Proof.
  intros H. destruct l as [| []]; cbn; try lia. destruct (Z.even m); lia.
Qed.

Lemma binary_round_aux_not_nan (s : bool) (m e : Z) (l : location) :
  (0 <= m)%Z -> binary_round_aux prec emax s m e l <> S754_nan.
Proof.
  intros H. unfold binary_round_aux.
  pose proof (@shr_fexp_nonneg m e l H) as H1.
  destruct (shr_fexp prec emax m e l) as [mrs' e']. cbn [fst] in H1.
  pose proof (@shr_fexp_nonneg _ e' loc_Exact
                (@round_nearest_even_nonneg _ (loc_of_shr_record mrs') H1)) as H2.
  destruct (shr_fexp prec emax (round_nearest_even (shr_m mrs') (loc_of_shr_record mrs')) e' loc_Exact)
    as [mrs'' e'']. cbn [fst] in H2.
  destruct (shr_m mrs'') as [| p | p]; try discriminate; [| lia].
  destruct (Z.leb e'' (emax - prec)); discriminate.
Qed.

Lemma sqrtrem_fst_nonneg (n : Z) : (0 <= fst (Z.sqrtrem n))%Z.
Proof.
  destruct n as [| p | p]; cbn; try lia.
  destruct (Pos.sqrtrem p) as [s [| r |]]; cbn; lia.
Qed.

Lemma SFsqrt_not_nan (x : spec_float) :
  SFleb (S754_zero false) x = true -> SF64sqrt x <> S754_nan.
Proof.
  destruct x as [s | s | | s m e]; cbn; try discriminate.
  - destruct s; discriminate.
  - destruct s; [discriminate |]. intros _.
    unfold SFsqrt_core_binary.
    match goal with |- context [Z.sqrtrem ?n] =>
      pose proof (sqrtrem_fst_nonneg n) as Hq; destruct (Z.sqrtrem n) as [q r] end.
    cbn [fst] in Hq. apply binary_round_aux_not_nan. exact Hq.
Qed.

Lemma sqrt_nonnegative (r : float) : (0 <=? r) = true -> PrimFloat.sqrt r <> nan.
Proof.
  intros H E. rewrite leb_spec in H. change (Prim2SF 0) with (S754_zero false) in H.
  apply (@SFsqrt_not_nan _ H). rewrite <- sqrt_spec, E. reflexivity.
Qed.

Lemma opp_not_nan (u : float) : u <> nan -> - u <> nan.
Proof.
  intros H E. apply H. rewrite <- (opp_involutive u), E. reflexivity.
Qed.

(** Squaring, as numpy does for exponent 2, forgets the sign. *)
Lemma power_2_opp (u : float) : power (- u) 2 = power u 2.
Proof. apply mul_opp_opp. Qed.

End FloatFacts.

(** ** Facts on arrays and broadcasting *)

Section ArrayFacts.

Open Scope float_scope.

Lemma nth_map_seq {A : Type} (f : nat -> A) (d : A) (n i : nat) :
  (i < n)%nat -> nth i (map f (seq 0 n)) d = f i.
Proof.
  intros Hi.
  rewrite (nth_indep _ d (f 0%nat)) by (rewrite length_map, length_seq; exact Hi).
  rewrite (map_nth f (seq 0 n) 0%nat i), seq_nth by exact Hi. reflexivity.
Qed.

Lemma map_seq_ext {A : Type} (f g : nat -> A) (n : nat) :
  (forall i, (i < n)%nat -> f i = g i) -> map f (seq 0 n) = map g (seq 0 n).
Proof.
  intros H. apply map_ext_in. intros i Hi. apply in_seq in Hi. apply H. lia.
Qed.

Lemma length_iota (n : nat) : length (iota n) = n.
Proof. unfold iota. now rewrite length_map, length_seq. Qed.

Lemma length_ogrid_axis (s e : Z) (n : nat) : length (ogrid_axis s e n) = n.
Proof. unfold ogrid_axis. now rewrite length_map, length_iota. Qed.

Lemma nth_ogrid_axis (s e : Z) (n k : nat) :
  (k < n)%nat ->
  nth k (ogrid_axis s e n) 0
  = Py.float_of_int (Z.of_nat k) * ogrid_step s e n + Py.float_of_int s.
Proof.
  intros Hk. unfold ogrid_axis, iota. rewrite map_map.
  now rewrite nth_map_seq.
Qed.

Lemma nrows_column (v : vector) : nrows (column v) = length v.
Proof. unfold nrows, column. apply length_map. Qed.

Lemma ncols_column (v : vector) : v <> [] -> ncols (column v) = 1%nat.
Proof. destruct v; [congruence | reflexivity]. Qed.

Lemma get_column (v : vector) (i : nat) : get (column v) i 0 = nth i v 0.
Proof.
  unfold get, column. revert i.
  induction v as [| u v IH]; intros [| i]; simpl; auto.
Qed.

Lemma ravel_column (v : vector) : ravel (column v) = v.
Proof.
  unfold ravel, column. induction v as [| u v IH]; simpl; [| rewrite IH]; reflexivity.
Qed.

Lemma ravel_row (v : vector) : ravel (row v) = v.
Proof. unfold ravel, row. simpl. apply app_nil_r. Qed.

Lemma map2_column (f : float -> float) (v : vector) :
  map2 f (column v) = column (map f v).
Proof. unfold map2, column. rewrite !map_map. reflexivity. Qed.

Lemma map2_row (f : float -> float) (v : vector) :
  map2 f (row v) = row (map f v).
Proof. reflexivity. Qed.

Lemma nrows_tabulate (r c : nat) (f : nat -> nat -> float) :
  nrows (tabulate r c f) = r.
Proof. unfold nrows, tabulate. now rewrite length_map, length_seq. Qed.

Lemma ncols_tabulate (r c : nat) (f : nat -> nat -> float) :
  (0 < r)%nat -> ncols (tabulate r c f) = c.
Proof.
  intros Hr. unfold ncols, tabulate. destruct r as [| r]; [lia |].
  simpl. now rewrite length_map, length_seq.
Qed.

Lemma get_tabulate (r c : nat) (f : nat -> nat -> float) (i j : nat) :
  (i < r)%nat -> (j < c)%nat -> get (tabulate r c f) i j = f i j.
Proof.
  intros Hi Hj. unfold get, tabulate.
  rewrite nth_map_seq by exact Hi. now rewrite nth_map_seq.
Qed.

Lemma tabulate_ext (r c : nat) (f g : nat -> nat -> float) :
  (forall i j, (i < r)%nat -> (j < c)%nat -> f i j = g i j) ->
  tabulate r c f = tabulate r c g.
Proof.
  intros H. unfold tabulate. apply map_seq_ext. intros i Hi.
  apply map_seq_ext. intros j Hj. now apply H.
Qed.

Lemma map2_tabulate (h : float -> float) (r c : nat) (f : nat -> nat -> float) :
  map2 h (tabulate r c f) = tabulate r c (fun i j => h (f i j)).
Proof.
  unfold map2, tabulate. rewrite map_map. apply map_ext. intros i.
  now rewrite map_map.
Qed.

Lemma broadcast_dim_same (n : nat) : broadcast_dim n n = Some n.
Proof. unfold broadcast_dim. now rewrite Nat.eqb_refl. Qed.

Lemma broadcast_dim_1_r (n : nat) : broadcast_dim n 1 = Some n.
Proof.
  unfold broadcast_dim. destruct (Nat.eqb n 1) eqn:E; [| reflexivity].
  apply Nat.eqb_eq in E. now subst.
Qed.

Lemma broadcast_dim_1_l (n : nat) : broadcast_dim 1 n = Some n.
Proof.
  unfold broadcast_dim. destruct (Nat.eqb 1 n) eqn:E; [| reflexivity].
  apply Nat.eqb_eq in E. now subst.
Qed.

Lemma bidx_lt (len i : nat) : (i < len)%nat -> bidx len i = i.
Proof.
  intros Hi. unfold bidx. destruct (Nat.eqb len 1) eqn:E; [| reflexivity].
  apply Nat.eqb_eq in E. lia.
Qed.

(** A column against a row: the outer combination. *)
Lemma broadcast2_column_row (f : float -> float -> float) (u v : vector) :
  u <> [] ->
  broadcast2 f (column u) (row v)
  = Ok (tabulate (length u) (length v) (fun i j => f (nth i u 0) (nth j v 0))).
Proof.
  intros Hu. unfold broadcast2.
  rewrite nrows_column, (ncols_column Hu).
  change (nrows (row v)) with 1%nat. change (ncols (row v)) with (length v).
  rewrite broadcast_dim_1_r, broadcast_dim_1_l. f_equal.
  apply tabulate_ext. intros i j Hi Hj. unfold bget.
  rewrite nrows_column, (ncols_column Hu).
  change (nrows (row v)) with 1%nat. change (ncols (row v)) with (length v).
  rewrite (bidx_lt Hi), (bidx_lt Hj). change (bidx 1 j) with 0%nat.
  change (bidx 1 i) with 0%nat. rewrite get_column. reflexivity.
Qed.

(** A full array against a row of the same width: the row is repeated. *)
Lemma broadcast2_tabulate_row (f : float -> float -> float) (r c : nat)
      (g : nat -> nat -> float) (v : vector) :
  (0 < r)%nat -> length v = c ->
  broadcast2 f (tabulate r c g) (row v)
  = Ok (tabulate r c (fun i j => f (g i j) (nth j v 0))).
Proof.
  intros Hr Hv. unfold broadcast2.
  rewrite nrows_tabulate, (ncols_tabulate _ _ Hr).
  change (nrows (row v)) with 1%nat. change (ncols (row v)) with (length v).
  rewrite Hv, broadcast_dim_1_r, broadcast_dim_same. f_equal.
  apply tabulate_ext. intros i j Hi Hj. unfold bget.
  rewrite nrows_tabulate, (ncols_tabulate _ _ Hr).
  change (nrows (row v)) with 1%nat. change (ncols (row v)) with (length v).
  rewrite Hv, (bidx_lt Hi), (bidx_lt Hj). change (bidx 1 i) with 0%nat.
  now rewrite get_tabulate.
Qed.

(** Two 1-D arrays of one length: elementwise. *)
Lemma broadcast1_same (f : float -> float -> float) (u v : vector) :
  length u = length v ->
  broadcast1 f u v
  = Ok (map (fun i => f (nth i u 0) (nth i v 0)) (seq 0 (length u))).
Proof.
  intros H. unfold broadcast1. rewrite <- H, broadcast_dim_same. f_equal.
  apply map_seq_ext. intros i Hi. now rewrite (bidx_lt Hi).
Qed.

End ArrayFacts.

(** ** The implicit surfaces *)

Section Surfaces.

Open Scope float_scope.

(** The residual [y^2 - x^3 - a x - b] at one point, in binary64. *)
Definition residual (a b x y : float) : float :=
  power y 2 - power x 3 - a * x - b.

(** The residual array over a column [y] and a row [x], written once for
    the four copies of the expression in the scripts. *)
Definition residual_surface (y x : ndarray) (a b : float) : result ndarray :=
  (t <- sub2 (pow2d y 2) (pow2d x 3) ;;
   u <- sub2 t (mul_scalar2 x a) ;;
   Ok (sub_scalar2 u b))%result.

Lemma nth_map_lt (f : float -> float) (v : vector) (i : nat) :
  (i < length v)%nat -> nth i (map f v) 0 = f (nth i v 0).
Proof.
  intros Hi. rewrite (nth_indep _ 0 (f 0)) by (now rewrite length_map).
  apply map_nth.
Qed.

Lemma residual_surface_column_row (ys xs : vector) (a b : float) :
  ys <> [] ->
  residual_surface (column ys) (row xs) a b
  = Ok (tabulate (length ys) (length xs)
          (fun i j => residual a b (nth j xs 0) (nth i ys 0))).
Proof.
  intros Hys. unfold residual_surface, pow2d, sub2, mul_scalar2, sub_scalar2.
  rewrite map2_column, !map2_row.
  rewrite broadcast2_column_row by (destruct ys; [congruence | discriminate]).
  cbn [rbind]. rewrite !length_map.
  rewrite broadcast2_tabulate_row
    by (rewrite ?length_map; destruct ys; simpl; congruence || lia).
  cbn [rbind]. rewrite map2_tabulate. f_equal.
  apply tabulate_ext. intros i j Hi Hj. unfold residual.
  rewrite !nth_map_lt by assumption. now rewrite (mul_comm a).
Qed.

Lemma ogrid_axis_nonempty (s e : Z) : ogrid_axis s e resolution <> [].
Proof.
  intros H. apply (f_equal (@length float)) in H.
  rewrite length_ogrid_axis in H. discriminate.
Qed.

(** What it means for [E] to be the residual of [(a, b)] sampled on the
    grid [(y, x)]: a [resolution x resolution] array whose entry [(i, j)]
    is the residual at the [j]-th abscissa and the [i]-th ordinate. *)
Definition samples_residual (E : result ndarray) (a b : float) (y x : ndarray)
  : Prop :=
  exists S, E = Ok S /\ shape S = (resolution, resolution) /\
    forall i j, (i < resolution)%nat -> (j < resolution)%nat ->
      get S i j = residual a b (nth j (ravel x) 0) (nth i (ravel y) 0).

Lemma residual_surface_ogrid (ym xm : Z) (a b : float) :
  let g := Np.ogrid (- ym) ym resolution (- xm) xm resolution in
  samples_residual (residual_surface (fst g) (snd g) a b) a b (fst g) (snd g).
Proof.
  cbv zeta. unfold Np.ogrid. cbn [fst snd].
  rewrite residual_surface_column_row by apply ogrid_axis_nonempty.
  rewrite !length_ogrid_axis. eexists. split; [reflexivity |]. split.
  - unfold shape. rewrite nrows_tabulate, ncols_tabulate; [reflexivity |].
    unfold resolution. lia.
  - intros i j Hi Hj. rewrite get_tabulate by assumption.
    now rewrite ravel_row, ravel_column.
Qed.

(** The implicit surfaces a program computes, each with its coefficients
    as float64 and with the grid it is sampled on. *)
Definition implicit_surfaces (p : program)
  : list (result ndarray * (float * float) * (ndarray * ndarray)) :=
  match p with
  | CubicToEllipticCurve a b ym xm _ =>
      [(CubicToElliptic.elliptic_curve a b ym xm,
        (Py.float_of_int a, Py.float_of_int b),
        (CubicToElliptic.y ym xm, CubicToElliptic.x ym xm))]
  | PlotEllipticCurve a b ym xm =>
      [(PlotEllipticCurve.elliptic_curve a b ym xm,
        (Py.float_of_int a, Py.float_of_int b),
        (PlotEllipticCurve.y ym xm, PlotEllipticCurve.x ym xm))]
  | PlotEllipticCurveGrid av bv ym xm =>
      flat_map (fun a => map (fun b =>
          (PlotEllipticCurveGrid.curve ym xm a b, (a, b),
           (PlotEllipticCurveGrid.y ym xm, PlotEllipticCurveGrid.x ym xm))) bv) av
  | PointAdditionPlot a b xm ym =>
      [(PointAddition.elliptic_curve a b xm ym,
        (Py.float_of_int a, Py.float_of_int b),
        (PointAddition.y xm ym, PointAddition.x xm ym))]
  end.

End Surfaces.

(** Every implicit surface of a program is the residual expression on an
    [np.ogrid] grid. *)
Lemma implicit_surfaces_inv (p : program) (E : result ndarray) (a b : float)
      (y x : ndarray) :
  In (E, (a, b), (y, x)) (implicit_surfaces p) ->
  exists ym xm,
    (y, x) = Np.ogrid (- ym) ym resolution (- xm) xm resolution /\
    E = residual_surface y x a b.
Proof.
  destruct p as [a' b' ym xm ps | a' b' ym xm | av bv ym xm | a' b' xm ym];
    cbn [implicit_surfaces]; intros H.
  - destruct H as [H | []]. inversion H; subst. exists ym, xm. split; reflexivity.
  - destruct H as [H | []]. inversion H; subst. exists ym, xm. split; reflexivity.
  - apply in_flat_map in H. destruct H as [a' [_ H]].
    apply in_map_iff in H. destruct H as [b' [H _]].
    inversion H; subst. exists ym, xm. split; reflexivity.
  - destruct H as [H | []]. inversion H; subst. exists ym, xm. split; reflexivity.
Qed.

(** ** The sampling grid *)

Section SamplingGrid.

Open Scope float_scope.

(** The grid [(y, x)] of a program. *)
Definition grid_of (p : program) : ndarray * ndarray :=
  match p with
  | CubicToEllipticCurve _ _ ym xm _ => CubicToElliptic.grid ym xm
  | PlotEllipticCurve _ _ ym xm => PlotEllipticCurve.grid ym xm
  | PlotEllipticCurveGrid _ _ ym xm => PlotEllipticCurveGrid.grid ym xm
  | PointAdditionPlot _ _ xm ym => PointAddition.grid xm ym
  end.

(** The rational number a finite float stands for. *)
Definition to_Q (u : float) : option Q :=
  match Prim2SF u with
  | S754_zero _ => Some 0%Q
  | S754_finite s m e =>
      let n := if s then Zneg m else Zpos m in
      Some (match e with
            | Zneg p => Qmake n (Pos.pow 2 p)
            | _ => inject_Z (n * 2 ^ e)
            end)
  | _ => None
  end.

(** The [k]-th of [n] exactly equidistant points from [-bound] to
    [bound]: [-bound + k * (2 bound) / (n - 1)]. *)
Definition equidistant (bound : Z) (n k : nat) : Q :=
  Qmake (- (Z.of_nat n - 1) * bound + 2 * bound * Z.of_nat k)
        (Z.to_pos (Z.of_nat n - 1)).

(** Every sample is within [2^-48] of its equidistant point. *)
Definition near_equidistant (bound : Z) (v : vector) : bool :=
  forallb (fun k =>
             match to_Q (nth k v 0) with
             | Some q => Qle_bool (Qabs (q - equidistant bound (length v) k))
                                  (Qmake 1 (Pos.pow 2 48))
             | None => false
             end)
          (seq 0 (length v)).

Definition increasing (v : vector) : bool :=
  forallb (fun k => nth k v 0 <? nth (S k) v 0) (seq 0 (length v - 1)).

(** One coordinate vector of the grid, for the bound [bound]. *)
Definition axis_spec (bound : Z) (v : vector) : Prop :=
  length v = 100%nat /\
  hd 0 v = Py.float_of_int (- bound) /\
  last v 0 = Py.float_of_int bound /\
  (forall k, (k < 100)%nat ->
     nth k v 0 = Py.float_of_int (Z.of_nat k)
                 * (Py.float_of_int (bound - - bound) / Py.float_of_int 99)
                 + Py.float_of_int (- bound)) /\
  increasing v = true /\
  near_equidistant bound v = true.

Definition grid_spec (p : program) : Prop :=
  let (ym, xm) := bounds_of p in
  let (y, x) := grid_of p in
  shape y = (100%nat, 1%nat) /\ shape x = (1%nat, 100%nat) /\
  axis_spec ym (ravel y) /\ axis_spec xm (ravel x) /\
  Forall (fun '(E, _, _) => exists S, E = Ok S /\ shape S = (100%nat, 100%nat))
         (implicit_surfaces p).

Lemma axis_spec_ogrid (bound : Z) :
  hd 0 (ogrid_axis (- bound) bound resolution) = Py.float_of_int (- bound) ->
  last (ogrid_axis (- bound) bound resolution) 0 = Py.float_of_int bound ->
  increasing (ogrid_axis (- bound) bound resolution) = true ->
  near_equidistant bound (ogrid_axis (- bound) bound resolution) = true ->
  axis_spec bound (ogrid_axis (- bound) bound resolution).
Proof.
  intros Hh Hl Hi Hn. unfold axis_spec.
  split; [apply length_ogrid_axis |].
  split; [exact Hh |]. split; [exact Hl |].
  split; [| split; assumption].
  intros k Hk. now rewrite nth_ogrid_axis.
Qed.

Lemma surfaces_shape (p : program) :
  Forall (fun '(E, _, _) => exists S, E = Ok S /\ shape S = (100%nat, 100%nat))
         (implicit_surfaces p).
Proof.
  apply Forall_forall. intros [[E [a b]] [y x]] H.
  apply implicit_surfaces_inv in H. destruct H as [ym [xm [Hg HE]]].
  pose proof (residual_surface_ogrid ym xm a b) as Hs. cbv zeta in Hs.
  rewrite <- Hg in Hs. cbn [fst snd] in Hs. rewrite <- HE in Hs.
  destruct Hs as [S [HS [Hshape _]]]. exists S. now split.
Qed.

Lemma grid_spec_intro (p : program) :
  (let (ym, xm) := bounds_of p in
   grid_of p = Np.ogrid (- ym) ym resolution (- xm) xm resolution /\
   axis_spec ym (ogrid_axis (- ym) ym resolution) /\
   axis_spec xm (ogrid_axis (- xm) xm resolution)) ->
  grid_spec p.
Proof.
  unfold grid_spec. destruct (bounds_of p) as [ym xm].
  intros [-> [Hy Hx]]. unfold Np.ogrid.
  rewrite ravel_column, ravel_row.
  split; [| split; [| split; [exact Hy | split; [exact Hx |]]]].
  - unfold shape. rewrite nrows_column, length_ogrid_axis.
    rewrite ncols_column by apply ogrid_axis_nonempty. reflexivity.
  - unfold shape. change (nrows (row (ogrid_axis (- xm) xm resolution))) with 1%nat.
    change (ncols (row (ogrid_axis (- xm) xm resolution)))
      with (length (ogrid_axis (- xm) xm resolution)).
    now rewrite length_ogrid_axis.
  - apply surfaces_shape.
Qed.

End SamplingGrid.

(** C2.  In every script of the repository the two coordinate vectors of
    the grid hold exactly 100 samples each, the [k]-th being [k] steps of
    [2 * bound / 99] from [-bound]; they start at [-bound] and end at
    [bound] exactly, increase strictly and stay within [2^-48] of the
    equidistant points of [[-bound, bound]]; [y] is a 100 x 1 column, [x]
    a 1 x 100 row, and every implicit surface computed from them by
    broadcasting is 100 x 100. *)
Theorem sampling_grid_100_uniform_symmetric : Forall grid_spec repository.
Proof.
  unfold repository.
  apply Forall_cons; [| apply Forall_cons; [| apply Forall_cons;
    [| apply Forall_cons; [| apply Forall_nil]]]];
    apply grid_spec_intro; cbn [bounds_of
    cubic_to_elliptic_curve_py plot_elliptic_curve_py
    plot_elliptic_curve_grid_py point_addition_py];
    (split; [reflexivity |]); split; apply axis_spec_ogrid;
    vm_compute; reflexivity.
Qed.

(** ** The residual in exact arithmetic (C1) *)

Section ExactResidual.

(** A dyadic number [(m, e)], standing for [m * 2^e]: the finite binary64
    numbers are dyadic, and sums, differences and products of dyadic
    numbers are computed without rounding. *)
Definition dyadic : Type := (Z * Z)%type.

Definition dy_Q (d : dyadic) : Q := (inject_Z (fst d) * 2 ^ snd d)%Q.

(** The number a finite float stands for. *)
Definition dy_of (u : float) : option dyadic :=
  match Prim2SF u with
  | S754_zero _ => Some (0, 0)%Z
  | S754_finite s m e => Some (if s then Zneg m else Zpos m, e)
  | _ => None
  end.

Definition dy_mul (u v : dyadic) : dyadic := (fst u * fst v, snd u + snd v)%Z.

(** The mantissa of [u] at the exponent [e], for [e] at most that of [u]. *)
Definition dy_align (u : dyadic) (e : Z) : Z := Z.shiftl (fst u) (snd u - e).

Definition dy_add (u v : dyadic) : dyadic :=
  let e := Z.min (snd u) (snd v) in ((dy_align u e + dy_align v e)%Z, e).

Definition dy_sub (u v : dyadic) : dyadic :=
  let e := Z.min (snd u) (snd v) in ((dy_align u e - dy_align v e)%Z, e).

Definition dy_abs (u : dyadic) : dyadic := (Z.abs (fst u), snd u).

Definition dy_leb (u v : dyadic) : bool :=
  let e := Z.min (snd u) (snd v) in (dy_align u e <=? dy_align v e)%Z.

Lemma two_nonzero : ~ (2 == 0)%Q.
Proof. discriminate. Qed.

Lemma two_power_pos (e : Z) : (0 < 2 ^ e)%Q.
Proof. apply Qpower_0_lt. reflexivity. Qed.

Lemma dy_mul_Q (u v : dyadic) : (dy_Q (dy_mul u v) == dy_Q u * dy_Q v)%Q.
Proof.
  unfold dy_Q, dy_mul. cbn [fst snd].
  rewrite inject_Z_mult, Qpower_plus by exact two_nonzero. ring.
Qed.

Lemma dy_align_Q (u : dyadic) (e : Z) :
  (e <= snd u)%Z -> (inject_Z (dy_align u e) * 2 ^ e == dy_Q u)%Q.
Proof.
  intros H. unfold dy_align, dy_Q.
  rewrite Z.shiftl_mul_pow2 by lia.
  rewrite inject_Z_mult, Zpower_Qpower by lia.
  change (inject_Z 2) with 2%Q.
  rewrite <- Qmult_assoc, <- Qpower_plus by exact two_nonzero.
  now replace (snd u - e + e)%Z with (snd u) by lia.
Qed.

Lemma dy_add_Q (u v : dyadic) : (dy_Q (dy_add u v) == dy_Q u + dy_Q v)%Q.
Proof.
  unfold dy_add. cbv zeta.
  rewrite <- (@dy_align_Q u (Z.min (snd u) (snd v))) by lia.
  rewrite <- (@dy_align_Q v (Z.min (snd u) (snd v))) by lia.
  unfold dy_Q. cbn [fst snd]. rewrite inject_Z_plus. ring.
Qed.

Lemma dy_sub_Q (u v : dyadic) : (dy_Q (dy_sub u v) == dy_Q u - dy_Q v)%Q.
Proof.
  unfold dy_sub. cbv zeta.
  rewrite <- (@dy_align_Q u (Z.min (snd u) (snd v))) by lia.
  rewrite <- (@dy_align_Q v (Z.min (snd u) (snd v))) by lia.
  unfold dy_Q. cbn [fst snd]. unfold Z.sub.
  rewrite inject_Z_plus, inject_Z_opp. ring.
Qed.

Lemma dy_abs_Q (u : dyadic) : (dy_Q (dy_abs u) == Qabs (dy_Q u))%Q.
Proof.
  unfold dy_Q, dy_abs. cbn [fst snd].
  rewrite Qabs_Qmult, (Qabs_pos (2 ^ snd u)) by (apply Qlt_le_weak, two_power_pos).
  reflexivity.
Qed.

Lemma dy_leb_Q (u v : dyadic) : dy_leb u v = true -> (dy_Q u <= dy_Q v)%Q.
Proof.
  unfold dy_leb. cbv zeta. intros H. apply Z.leb_le in H.
  rewrite <- (@dy_align_Q u (Z.min (snd u) (snd v))) by lia.
  rewrite <- (@dy_align_Q v (Z.min (snd u) (snd v))) by lia.
  apply Qmult_le_compat_r; [| apply Qlt_le_weak, two_power_pos].
  now rewrite <- Zle_Qle.
Qed.

(** [to_Q] reads the same number. *)
Lemma to_Q_dy_of (u : float) (d : dyadic) :
  dy_of u = Some d -> exists q, to_Q u = Some q /\ (q == dy_Q d)%Q.
Proof.
  unfold dy_of, to_Q. destruct (Prim2SF u) as [s | s | | s m e]; try discriminate.
  - intros [= <-]. exists 0%Q. split; reflexivity.
  - intros [= <-]. eexists. split; [reflexivity |]. unfold dy_Q. cbn [fst snd].
    set (n := if s then Z.neg m else Z.pos m).
    destruct e as [| p | p].
    + change (2 ^ 0)%Z with 1%Z. rewrite Z.mul_1_r. change (2 ^ 0)%Q with 1%Q. ring.
    + rewrite inject_Z_mult, Zpower_Qpower by lia. reflexivity.
    + rewrite Qmake_Qdiv. unfold Qdiv.
      change (Z.neg p) with (- Z.pos p)%Z. rewrite Qpower_opp.
      rewrite Pos2Z.inj_pow, Zpower_Qpower by lia. reflexivity.
Qed.

(** The exact value of [x^3 + a x + b], and of [y^2]. *)
Definition dy_cubic (a b x : dyadic) : dyadic :=
  dy_add (dy_add (dy_mul (dy_mul x x) x) (dy_mul a x)) b.

Definition dy_square (y : dyadic) : dyadic := dy_mul y y.

(** [r] is within [tol] of [sq - cu]. *)
Definition dy_close (tol : dyadic) (r : float) (sq cu : option dyadic) : bool :=
  match dy_of r, sq, cu with
  | Some dr, Some s, Some c => dy_leb (dy_abs (dy_sub dr (dy_sub s c))) tol
  | _, _, _ => false
  end.

(** Every entry of [S] is within [tol] of the exact residual at its grid
    point: the cubic part is computed once for each abscissa and the square
    once for each ordinate. *)
Definition close_surface (tol : dyadic) (a b : float) (S : ndarray)
           (xs ys : vector) : bool :=
  match dy_of a, dy_of b with
  | Some da, Some db =>
      let cus := map (fun x => option_map (dy_cubic da db) (dy_of x)) xs in
      let sqs := map (fun y => option_map dy_square (dy_of y)) ys in
      Nat.eqb (length S) (length ys)
      && forallb (fun '(row, sq) =>
                    Nat.eqb (length row) (length xs)
                    && forallb (fun '(r, cu) => dy_close tol r sq cu) (combine row cus))
                 (combine S sqs)
  | _, _ => false
  end.

(** The float [r] is the residual [y^2 - x^3 - a x - b] of the numbers that
    [a], [b], [x] and [y] stand for, up to [tol]. *)
Definition equals_residual_within (tol : Q) (r a b x y : float) : Prop :=
  exists qr qa qb qx qy : Q,
    to_Q r = Some qr /\ to_Q a = Some qa /\ to_Q b = Some qb /\
    to_Q x = Some qx /\ to_Q y = Some qy /\
    (Qabs (qr - (qy * qy - qx * qx * qx - qa * qx - qb)) <= tol)%Q.

Lemma forallb_combine_nth {A B : Type} (f : A * B -> bool) (l : list A)
      (l' : list B) (i : nat) (d : A) (d' : B) :
  forallb f (combine l l') = true ->
  (i < length l)%nat -> (i < length l')%nat ->
  f (nth i l d, nth i l' d') = true.
Proof.
  revert l' i. induction l as [| a l IH]; intros [| b l'] i H Hi Hi';
    cbn [length] in *; try lia.
  cbn [combine forallb] in H. apply andb_true_iff in H. destruct H as [H1 H2].
  destruct i as [| i]; cbn [nth]; [exact H1 |]. apply IH; [exact H2 | lia | lia].
Qed.

Lemma dy_close_sound (tol : dyadic) (r a b x y : float) (da db dx dy : dyadic) :
  dy_of a = Some da -> dy_of b = Some db -> dy_of x = Some dx -> dy_of y = Some dy ->
  dy_close tol r (Some (dy_square dy)) (Some (dy_cubic da db dx)) = true ->
  equals_residual_within (dy_Q tol) r a b x y.
Proof.
  intros Ha Hb Hx Hy H. unfold dy_close in H.
  destruct (dy_of r) as [dr |] eqn:Hr; [| discriminate].
  apply dy_leb_Q in H.
  destruct (to_Q_dy_of _ Hr) as [qr [Er Qr]].
  destruct (to_Q_dy_of _ Ha) as [qa [Ea Qa]].
  destruct (to_Q_dy_of _ Hb) as [qb [Eb Qb]].
  destruct (to_Q_dy_of _ Hx) as [qx [Ex Qx]].
  destruct (to_Q_dy_of _ Hy) as [qy [Ey Qy]].
  exists qr, qa, qb, qx, qy. repeat (split; [assumption |]).
  rewrite dy_abs_Q, !dy_sub_Q in H. unfold dy_square, dy_cubic in H.
  rewrite !dy_add_Q, !dy_mul_Q in H.
  rewrite Qr, Qa, Qb, Qx, Qy.
  eapply Qle_trans; [| exact H]. apply Qle_lteq. right. apply Qabs_wd. ring.
Qed.

Lemma close_surface_sound (tol : dyadic) (a b : float) (S : ndarray)
      (xs ys : vector) (i j : nat) :
  close_surface tol a b S xs ys = true ->
  (i < length ys)%nat -> (j < length xs)%nat ->
  equals_residual_within (dy_Q tol) (get S i j) a b (nth j xs 0%float) (nth i ys 0%float).
Proof.
  unfold close_surface. intros H Hi Hj.
  destruct (dy_of a) as [da |] eqn:Ha; [| discriminate].
  destruct (dy_of b) as [db |] eqn:Hb; [| discriminate].
  cbv zeta in H. apply andb_true_iff in H. destruct H as [Hlen H].
  apply Nat.eqb_eq in Hlen.
  pose proof (@forallb_combine_nth _ _ _ S _ i [] None H) as Hrow.
  cbv beta iota in Hrow. rewrite length_map in Hrow.
  specialize (Hrow ltac:(lia) Hi).
  apply andb_true_iff in Hrow. destruct Hrow as [Hlen' Hrow].
  apply Nat.eqb_eq in Hlen'.
  pose proof (@forallb_combine_nth _ _ _ (nth i S []) _ j 0%float None Hrow) as Hp.
  cbv beta iota in Hp. rewrite length_map in Hp.
  specialize (Hp ltac:(lia) Hj).
  rewrite (nth_indep _ None (option_map dy_square (dy_of 0%float))) in Hp
    by (rewrite length_map; exact Hi).
  rewrite (nth_indep (map _ xs) None (option_map (dy_cubic da db) (dy_of 0%float))) in Hp
    by (rewrite length_map; exact Hj).
  rewrite (map_nth (fun y => option_map dy_square (dy_of y))) in Hp.
  rewrite (map_nth (fun x => option_map (dy_cubic da db) (dy_of x))) in Hp.
  destruct (dy_of (nth i ys 0%float)) as [dy |] eqn:Hy;
    [| unfold dy_close in Hp; cbn [option_map] in Hp;
       destruct (dy_of (nth j (nth i S []) 0%float)); discriminate Hp].
  destruct (dy_of (nth j xs 0%float)) as [dx |] eqn:Hx;
    [| unfold dy_close in Hp; cbn [option_map] in Hp;
       destruct (dy_of (nth j (nth i S []) 0%float)); discriminate Hp].
  cbn [option_map] in Hp. unfold get.
  eapply dy_close_sound; eassumption.
Qed.

(** The rounding allowed on an entry: [2^-42], less than [2.3e-13], for
    entries that reach a thousand. *)
Definition rounding : dyadic := (1, -42)%Z.

(** [E] is the residual of [(a, b)] on the grid [(y, x)] in exact
    arithmetic, up to the rounding of binary64. *)
Definition samples_exact_residual (E : result ndarray) (a b : float)
           (y x : ndarray) : Prop :=
  exists S, E = Ok S /\
    forall i j, (i < resolution)%nat -> (j < resolution)%nat ->
      equals_residual_within (1 # 2 ^ 42) (get S i j) a b
        (nth j (ravel x) 0%float) (nth i (ravel y) 0%float).

Definition close_result (E : result ndarray) (a b : float) (y x : ndarray) : bool :=
  match E with
  | Ok A =>
      Nat.eqb (length (ravel x)) resolution && Nat.eqb (length (ravel y)) resolution
      && close_surface rounding a b A (ravel x) (ravel y)
  | Raise _ => false
  end.

Lemma close_result_sound (E : result ndarray) (a b : float) (y x : ndarray) :
  close_result E a b y x = true -> samples_exact_residual E a b y x.
Proof.
  unfold close_result. destruct E as [S | e]; [| discriminate].
  intros H. apply andb_true_iff in H. destruct H as [H Hc].
  apply andb_true_iff in H. destruct H as [Hx Hy].
  apply Nat.eqb_eq in Hx. apply Nat.eqb_eq in Hy.
  exists S. split; [reflexivity |]. intros i j Hi Hj.
  rewrite <- Hy in Hi. rewrite <- Hx in Hj.
  exact (@close_surface_sound rounding a b S (ravel x) (ravel y) i j Hc Hi Hj).
Qed.

Definition close_surfaces (p : program) : bool :=
  forallb (fun '(E, (a, b), (y, x)) => close_result E a b y x) (implicit_surfaces p).

End ExactResidual.

Lemma close_surfaces_repository : forallb close_surfaces repository = true.
Proof. vm_cast_no_check (eq_refl true). Qed.

(** C1.  For every script and every point of its sampling grid, the entry
    of the implicit-surface array is the residual [y^2 - x^3 - a x - b] at
    that grid point, with [a] and [b] the coefficients of the script (the
    pair of the current subplot in the grid script).  In binary64, and with
    any constants: the entry is [pow(y, 2) - pow(x, 3) - x * a - b]
    evaluated from left to right at the [j]-th abscissa and the [i]-th
    ordinate.  In exact arithmetic, with the constants the four files
    hard-code: the entry is within [2^-42] of the rational number
    [y^2 - x^3 - a x - b] of the numbers that the coefficients and the
    coordinates of the grid point stand for. *)
Theorem implicit_surface_is_residual :
  (forall p,
      Forall (fun '(E, (a, b), (y, x)) => samples_residual E a b y x)
             (implicit_surfaces p)) /\
  Forall (fun p =>
            Forall (fun '(E, (a, b), (y, x)) => samples_exact_residual E a b y x)
                   (implicit_surfaces p))
         repository.
Proof.
  split.
  - intros p. apply Forall_forall. intros [[E [a b]] [y x]] H.
    apply implicit_surfaces_inv in H. destruct H as [ym [xm [Hg HE]]].
    pose proof (residual_surface_ogrid ym xm a b) as Hs. cbv zeta in Hs.
    rewrite <- Hg in Hs. cbn [fst snd] in Hs. rewrite HE. exact Hs.
  - apply Forall_forall. intros p Hp. apply Forall_forall.
    intros [[E [a b]] [y x]] H.
    pose proof close_surfaces_repository as Hc.
    rewrite forallb_forall in Hc. specialize (Hc p Hp).
    unfold close_surfaces in Hc. rewrite forallb_forall in Hc.
    apply close_result_sound. exact (Hc _ H).
Qed.

(** ** Mirror symmetry in [y] *)

Section Mirror.

Open Scope float_scope.

Lemma pow2d_2_neg2 (y : ndarray) : pow2d (neg2 y) 2 = pow2d y 2.
Proof.
  unfold pow2d, neg2, map2. rewrite map_map. apply map_ext. intros r.
  rewrite map_map. apply map_ext. intros u. apply power_2_opp.
Qed.

Lemma neg2_involutive (y : ndarray) : neg2 (neg2 y) = y.
Proof.
  unfold neg2, map2. rewrite map_map.
  rewrite <- (map_id y) at 2. apply map_ext. intros r.
  rewrite map_map. rewrite <- (map_id r) at 2. apply map_ext.
  apply opp_involutive.
Qed.

Lemma residual_even_in_y (a b x y : float) :
  residual a b x (- y) = residual a b x y.
Proof. unfold residual. now rewrite power_2_opp. Qed.

End Mirror.

(** C9.  The elliptic residual is even in [y]: evaluated on the mirrored
    ordinates [-y] it is the same array, in each of the four scripts, and
    pointwise [residual x (-y) = residual x y]; and in both scripts that
    draw them the two cubic residuals are mirror images,
    [cubic_curve(x, -y) = cubic_curve_neg(x, y)], for all arrays [y] and
    [x] and all coefficients. *)
Theorem residuals_mirror_in_y (a b : Z) (af bf : float) (y x : ndarray) :
  CubicToElliptic.elliptic_curve_of a b (neg2 y) x
    = CubicToElliptic.elliptic_curve_of a b y x /\
  PlotEllipticCurve.elliptic_curve_of a b (neg2 y) x
    = PlotEllipticCurve.elliptic_curve_of a b y x /\
  PlotEllipticCurveGrid.curve_of (neg2 y) x af bf
    = PlotEllipticCurveGrid.curve_of y x af bf /\
  PointAddition.elliptic_curve_of a b (neg2 y) x
    = PointAddition.elliptic_curve_of a b y x /\
  CubicToElliptic.cubic_curve_of a b (neg2 y) x
    = CubicToElliptic.cubic_curve_neg_of a b y x /\
  PlotEllipticCurve.cubic_curve_of a b (neg2 y) x
    = PlotEllipticCurve.cubic_curve_neg_of a b y x /\
  (forall u v : float, residual af bf u (- v) = residual af bf u v).
Proof.
  unfold CubicToElliptic.elliptic_curve_of, PlotEllipticCurve.elliptic_curve_of,
    PlotEllipticCurveGrid.curve_of, PointAddition.elliptic_curve_of,
    CubicToElliptic.cubic_curve_of, CubicToElliptic.cubic_curve_neg_of,
    PlotEllipticCurve.cubic_curve_of, PlotEllipticCurve.cubic_curve_neg_of.
  rewrite pow2d_2_neg2, neg2_involutive.
  repeat split; try reflexivity.
  intros u v. apply residual_even_in_y.
Qed.

(** ** Running the plotting commands *)

Section Drawing.

(** [m] returns normally and its whole effect is to put the artists [l]
    on the figure, whatever the world it starts from. *)
Definition draws (m : M unit) (l : figure) : Prop :=
  forall w, m w = (Ok tt, set_fig w (fig w ++ l)).

Lemma set_fig_set_fig (w : world) (f g : figure) :
  set_fig (set_fig w f) g = set_fig w g.
Proof. reflexivity. Qed.

Lemma draws_ret : draws (ret tt) [].
Proof. intros [f d fs t]. unfold ret, set_fig. cbn. now rewrite app_nil_r. Qed.

Lemma draws_draw (a : artist) : draws (draw a) [a].
Proof. intros w. reflexivity. Qed.

Lemma draws_bind (m : M unit) (k : unit -> M unit) (l1 l2 : figure) :
  draws m l1 -> draws (k tt) l2 -> draws (bind m k) (l1 ++ l2).
Proof.
  intros H1 H2 w. unfold bind. rewrite H1, H2.
  unfold set_fig. cbn. now rewrite app_assoc.
Qed.

Lemma draws_lift_bind {A : Type} (r : result A) (v : A) (k : A -> M unit)
      (l : figure) :
  r = Ok v -> draws (k v) l -> draws (bind (lift r) k) l.
Proof. intros -> H w. unfold bind, lift. apply H. Qed.

Lemma draws_when (c : bool) (m : M unit) (l : figure) :
  draws m l -> draws (when c m) (if c then l else []).
Proof. intros H. destruct c; [exact H | apply draws_ret]. Qed.

Lemma draws_for_each {A : Type} (l : list A) (body : A -> M unit)
      (g : A -> figure) :
  (forall a, In a l -> draws (body a) (g a)) ->
  draws (for_each l body) (flat_map g l).
Proof.
  induction l as [| a l IH]; intros H; cbn [for_each flat_map].
  - apply draws_ret.
  - apply draws_bind; [apply H; now left |].
    apply IH. intros a' Ha'. apply H. now right.
Qed.

Lemma draws_contour (ax : axes) (X Y : vector) (Zs : ndarray)
      (levels : vector) (colors : string) :
  (2 <= nrows Zs)%nat -> (2 <= ncols Zs)%nat ->
  length X = ncols Zs -> length Y = nrows Zs ->
  draws (contour ax X Y Zs levels colors) [Contour ax X Y Zs levels colors].
Proof.
  intros Hr Hc HX HY. unfold contour.
  replace (Nat.ltb (nrows Zs) 2) with false
    by (symmetry; apply Nat.ltb_ge; exact Hr).
  replace (Nat.ltb (ncols Zs) 2) with false
    by (symmetry; apply Nat.ltb_ge; exact Hc).
  rewrite HX, HY, !Nat.eqb_refl. cbn. apply draws_draw.
Qed.

(** A contour of a full [resolution x resolution] table over the grid. *)
Lemma draws_contour_grid (ax : axes) (ym xm : Z) (f : nat -> nat -> float)
      (colors : string) :
  let g := Np.ogrid (- ym) ym resolution (- xm) xm resolution in
  let S := tabulate resolution resolution f in
  draws (contour ax (ravel (snd g)) (ravel (fst g)) S [0%float] colors)
        [Contour ax (ravel (snd g)) (ravel (fst g)) S [0%float] colors].
Proof.
  cbv zeta. unfold Np.ogrid. cbn [fst snd]. rewrite ravel_row, ravel_column.
  apply draws_contour;
    rewrite ?nrows_tabulate, ?ncols_tabulate, ?length_ogrid_axis;
    unfold resolution; lia.
Qed.

Lemma index_lt (v : vector) (i : nat) :
  (i < length v)%nat -> index v i = Ok (nth i v 0%float).
Proof.
  intros Hi. unfold index. now rewrite (nth_error_nth' v 0%float Hi).
Qed.

Lemma map_seq_nth {A : Type} (g : float -> A) (v : vector) :
  map (fun i => g (nth i v 0%float)) (seq 0 (length v)) = map g v.
Proof.
  induction v as [| u v IH]; [reflexivity |].
  cbn [length seq map nth]. f_equal.
  rewrite <- seq_shift, map_map. exact IH.
Qed.

Lemma flat_map_seq_nth {A : Type} (g : float -> list A) (v : vector) :
  flat_map (fun i => g (nth i v 0%float)) (seq 0 (length v)) = flat_map g v.
Proof.
  rewrite !flat_map_concat_map. f_equal. apply map_seq_nth.
Qed.

(** The three-term expressions of the scripts, on a column and a row:
    [h (f2 (f1 y x) x')] entry by entry. *)
Lemma three_terms_column_row (f1 f2 : float -> float -> float)
      (h : float -> float) (u v v' : vector) :
  u <> [] -> length v' = length v ->
  (t <- broadcast2 f1 (column u) (row v) ;;
   s <- broadcast2 f2 t (row v') ;;
   Ok (map2 h s))%result
  = Ok (tabulate (length u) (length v)
          (fun i j => h (f2 (f1 (nth i u 0%float) (nth j v 0%float))
                            (nth j v' 0%float)))).
Proof.
  intros Hu Hv. rewrite broadcast2_column_row by exact Hu. cbn [rbind].
  assert (Hlen : (0 < length u)%nat) by (destruct u; [congruence | cbn; lia]).
  rewrite broadcast2_tabulate_row; [| exact Hlen | exact Hv].
  cbn [rbind]. now rewrite map2_tabulate.
Qed.

End Drawing.

(** ** The figure each script builds *)

Section Figures.

Open Scope float_scope.

Lemma draws_draw_bind (a : artist) (k : unit -> M unit) (l : figure) :
  draws (k tt) l -> draws (bind (draw a) k) (a :: l).
Proof. intros H. apply (@draws_bind _ k [a] l (draws_draw a) H). Qed.

(** A surface over the grid of bounds [(ym, xm)]: entry [(i, j)] is [f] at
    the [j]-th abscissa and the [i]-th ordinate. *)
Definition table_of (ys xs : vector) (f : float -> float -> float) : ndarray :=
  tabulate (length ys) (length xs) (fun i j => f (nth j xs 0) (nth i ys 0)).

Definition grid_xs (xm : Z) : vector := ogrid_axis (- xm) xm resolution.
Definition grid_ys (ym : Z) : vector := ogrid_axis (- ym) ym resolution.

Definition table (ym xm : Z) (f : float -> float -> float) : ndarray :=
  table_of (grid_ys ym) (grid_xs xm) f.

Lemma table_eq (ym xm : Z) (f : float -> float -> float) :
  table ym xm f
  = tabulate resolution resolution
      (fun i j => f (nth j (ogrid_axis (- xm) xm resolution) 0)
                    (nth i (ogrid_axis (- ym) ym resolution) 0)).
Proof.
  unfold table, table_of, grid_ys, grid_xs. now rewrite !length_ogrid_axis.
Qed.

Lemma draws_contour_table_bind (ax : axes) (ym xm : Z)
      (f : float -> float -> float) (colors : string)
      (k : unit -> M unit) (l : figure) :
  draws (k tt) l ->
  draws (bind (contour ax (ravel (row (grid_xs xm))) (ravel (column (grid_ys ym)))
                       (table ym xm f) [0] colors) k)
        (Contour ax (grid_xs xm) (grid_ys ym) (table ym xm f) [0] colors :: l).
Proof.
  intros H.
  pose proof (draws_contour_grid ax ym xm
    (fun i j => f (nth j (ogrid_axis (- xm) xm resolution) 0)
                  (nth i (ogrid_axis (- ym) ym resolution) 0)) colors) as Hc.
  cbv zeta in Hc. unfold Np.ogrid in Hc. cbn [fst snd] in Hc.
  rewrite <- table_eq in Hc. fold (grid_xs xm) (grid_ys ym) in Hc.
  rewrite ravel_row, ravel_column in Hc |- *.
  apply (@draws_bind _ k [_] l Hc H).
Qed.

Lemma length_grid_xs (xm : Z) : length (grid_xs xm) = resolution.
Proof. apply length_ogrid_axis. Qed.

(** The pointwise readings of the residual expressions. *)
Definition radicand (a b x : float) : float := power x 3 + a * x + b.

Definition cubic_up (a b x y : float) : float := - y + power x 3 + x * a + b.
Definition cubic_up_neg (a b x y : float) : float := y + power x 3 + x * a + b.
Definition cubic_down (a b x y : float) : float := y - power x 3 - x * a - b.
Definition cubic_down_neg (a b x y : float) : float := - y - power x 3 - x * a - b.

Lemma three_terms_table (f1 f2 : float -> float -> float) (h : float -> float)
      (gy g1 g2 : float -> float) (ym xm : Z) (F : float -> float -> float) :
  (forall x y, h (f2 (f1 (gy y) (g1 x)) (g2 x)) = F x y) ->
  (t <- broadcast2 f1 (map2 gy (column (grid_ys ym))) (map2 g1 (row (grid_xs xm))) ;;
   s <- broadcast2 f2 t (map2 g2 (row (grid_xs xm))) ;;
   Ok (map2 h s))%result
  = Ok (table ym xm F).
Proof.
  intros HF. rewrite map2_column, !map2_row.
  rewrite three_terms_column_row.
  - rewrite !length_map, table_eq. unfold grid_ys, grid_xs.
    rewrite !length_ogrid_axis.
    f_equal. apply tabulate_ext. intros i j Hi Hj.
    rewrite !nth_map_lt by (rewrite length_ogrid_axis; assumption).
    apply HF.
  - intros E. apply (f_equal (@length float)) in E.
    rewrite length_map in E. unfold grid_ys in E.
    rewrite length_ogrid_axis in E. discriminate.
  - now rewrite !length_map.
Qed.

Lemma map2_id_eq (A : ndarray) : A = map2 (fun u => u) A.
Proof.
  unfold map2. rewrite <- (map_id A) at 1. apply map_ext. intros r.
  now rewrite map_id.
Qed.

Lemma residual_surface_table (ym xm : Z) (a b : float) :
  residual_surface (column (grid_ys ym)) (row (grid_xs xm)) a b
  = Ok (table ym xm (residual a b)).
Proof.
  unfold residual_surface, pow2d, mul_scalar2, sub_scalar2, sub2.
  apply three_terms_table. intros x y. unfold residual.
  now rewrite (mul_comm a).
Qed.

Lemma radicands_eq (a b : Z) (ps : vector) :
  CubicToElliptic.radicands a b ps
  = Ok (map (radicand (Py.float_of_int a) (Py.float_of_int b)) ps).
Proof.
  unfold CubicToElliptic.radicands, add1, pow1d, scalar_mul1, add_scalar1.
  rewrite broadcast1_same by (now rewrite !length_map).
  cbn [rbind]. rewrite map_map, length_map. f_equal.
  rewrite <- (map_seq_nth (radicand _ _)). apply map_seq_ext. intros i Hi.
  now rewrite !nth_map_lt.
Qed.

(** *** cubic-to-elliptic-curve.py *)

Definition cubic_to_elliptic_arrows (a b : float) (ps : vector) : figure :=
  flat_map (fun xi =>
              let r := radicand a b xi in
              [Annotate "" (xi, - Np.sqrt r) (xi, - r) "->" "grey";
               Annotate "" (xi, Np.sqrt r) (xi, r) "->" "grey"]) ps.

Definition cubic_to_elliptic_figure (a b ym xm : Z) (ps : vector) : figure :=
  let af := Py.float_of_int a in
  let bf := Py.float_of_int b in
  Subplots 1 1 (8, 6)%Z "none" "none"
  :: Contour (Axes 0 0) (grid_xs xm) (grid_ys ym) (table ym xm (cubic_up af bf)) [0] "red"
  :: Contour (Axes 0 0) (grid_xs xm) (grid_ys ym) (table ym xm (cubic_up_neg af bf)) [0]
       "royalblue"
  :: SetTitle (Axes 0 0) ("$" ++ CubicToElliptic.eq_title_cubic a b ++ "$")
  :: Contour (Axes 0 0) (grid_xs xm) (grid_ys ym) (table ym xm (residual af bf)) [0]
       "black"
  :: (cubic_to_elliptic_arrows af bf ps
      ++ [SetXLabel (Axes 0 0) "x"; SetYLabel (Axes 0 0) "y";
          SetYLim (Axes 0 0) (Py.float_of_int ym) (Py.float_of_int (- ym));
          AxHLine (Axes 0 0); AxVLine (Axes 0 0); Grid (Axes 0 0);
          SetTitle (Axes 0 0) ("$" ++ CubicToElliptic.eq_title a b ++ "$");
          TightLayout]).

Lemma cubic_to_elliptic_annotate (a b : float) (ps : vector) (i : nat) :
  (i < length ps)%nat ->
  draws (CubicToElliptic.annotate_point ps (map (radicand a b) ps)
           (neg1 (map (radicand a b) ps)) (sqrt1 (map (radicand a b) ps)) i)
        (let r := radicand a b (nth i ps 0) in
         [Annotate "" (nth i ps 0, - Np.sqrt r) (nth i ps 0, - r) "->" "grey";
          Annotate "" (nth i ps 0, Np.sqrt r) (nth i ps 0, r) "->" "grey"]).
Proof.
  intros Hi. unfold CubicToElliptic.annotate_point, neg1, sqrt1.
  rewrite !index_lt by (now rewrite ?length_map).
  rewrite !nth_map_lt by (now rewrite ?length_map).
  cbv zeta.
  do 3 (eapply draws_lift_bind; [reflexivity |]). apply draws_draw_bind.
  do 3 (eapply draws_lift_bind; [reflexivity |]). apply draws_draw.
Qed.

Lemma cubic_to_elliptic_build_draws (a b ym xm : Z) (ps : vector) :
  draws (CubicToElliptic.build a b ym xm ps)
        (cubic_to_elliptic_figure a b ym xm ps).
Proof.
  unfold CubicToElliptic.build, cubic_to_elliptic_figure. cbv zeta.
  apply draws_draw_bind.
  apply draws_lift_bind with (v := table ym xm
    (cubic_up (Py.float_of_int a) (Py.float_of_int b))).
  { unfold CubicToElliptic.cubic_curve, CubicToElliptic.cubic_curve_of,
      add2, pow2d, mul_scalar2, add_scalar2, neg2.
    apply three_terms_table. reflexivity. }
  apply draws_lift_bind with (v := table ym xm
    (cubic_up_neg (Py.float_of_int a) (Py.float_of_int b))).
  { unfold CubicToElliptic.cubic_curve_neg, CubicToElliptic.cubic_curve_neg_of,
      add2, pow2d, mul_scalar2, add_scalar2.
    rewrite (map2_id_eq (CubicToElliptic.y ym xm)) at 1.
    apply three_terms_table. reflexivity. }
  apply draws_contour_table_bind. apply draws_contour_table_bind.
  apply draws_draw_bind.
  apply draws_lift_bind with (v := table ym xm
    (residual (Py.float_of_int a) (Py.float_of_int b))).
  { apply residual_surface_table. }
  apply draws_contour_table_bind.
  unfold CubicToElliptic.cubic_curve_points, CubicToElliptic.cubic_curve_neg_points,
    CubicToElliptic.elliptic_curve_points.
  rewrite radicands_eq. cbn [rbind].
  eapply draws_lift_bind; [reflexivity |].
  eapply draws_lift_bind; [reflexivity |].
  eapply draws_lift_bind; [reflexivity |].
  apply draws_bind.
  { unfold cubic_to_elliptic_arrows.
    rewrite <- (flat_map_seq_nth
      (fun xi =>
         [Annotate "" (xi, - Np.sqrt (radicand (Py.float_of_int a) (Py.float_of_int b) xi))
            (xi, - radicand (Py.float_of_int a) (Py.float_of_int b) xi) "->" "grey";
          Annotate "" (xi, Np.sqrt (radicand (Py.float_of_int a) (Py.float_of_int b) xi))
            (xi, radicand (Py.float_of_int a) (Py.float_of_int b) xi) "->" "grey"])).
    apply draws_for_each. intros i Hi. apply in_seq in Hi.
    apply cubic_to_elliptic_annotate. lia. }
  repeat apply draws_draw_bind. apply draws_draw.
Qed.

(** *** plot-elliptic-curve.py *)

Definition plot_elliptic_curve_figure (a b ym xm : Z) : figure :=
  let af := Py.float_of_int a in
  let bf := Py.float_of_int b in
  [Subplots 1 2 (16, 6)%Z "none" "none";
   Contour (Axes 0 0) (grid_xs xm) (grid_ys ym) (table ym xm (cubic_down af bf)) [0]
     "royalblue";
   Contour (Axes 0 0) (grid_xs xm) (grid_ys ym) (table ym xm (cubic_down_neg af bf)) [0]
     "red";
   SetXLabel (Axes 0 0) "x"; SetYLabel (Axes 0 0) "y";
   AxHLine (Axes 0 0); AxVLine (Axes 0 0); Grid (Axes 0 0);
   SetTitle (Axes 0 0) ("$" ++ PlotEllipticCurve.eq_title_cubic a b ++ "$");
   Contour (Axes 0 1) (grid_xs xm) (grid_ys ym) (table ym xm (residual af bf)) [0]
     "royalblue";
   SetXLabel (Axes 0 1) "x"; SetYLabel (Axes 0 1) "y";
   AxHLine (Axes 0 1); AxVLine (Axes 0 1); Grid (Axes 0 1);
   SetTitle (Axes 0 1) ("$" ++ PlotEllipticCurve.eq_title a b ++ "$");
   TightLayout].

Lemma plot_elliptic_curve_build_draws (a b ym xm : Z) :
  draws (PlotEllipticCurve.build a b ym xm) (plot_elliptic_curve_figure a b ym xm).
Proof.
  unfold PlotEllipticCurve.build, plot_elliptic_curve_figure. cbv zeta.
  apply draws_draw_bind.
  apply draws_lift_bind with (v := table ym xm
    (cubic_down (Py.float_of_int a) (Py.float_of_int b))).
  { unfold PlotEllipticCurve.cubic_curve, PlotEllipticCurve.cubic_curve_of,
      sub2, pow2d, mul_scalar2, sub_scalar2.
    rewrite (map2_id_eq (PlotEllipticCurve.y ym xm)) at 1.
    apply three_terms_table. reflexivity. }
  apply draws_lift_bind with (v := table ym xm
    (cubic_down_neg (Py.float_of_int a) (Py.float_of_int b))).
  { unfold PlotEllipticCurve.cubic_curve_neg, PlotEllipticCurve.cubic_curve_neg_of,
      sub2, pow2d, mul_scalar2, sub_scalar2, neg2.
    apply three_terms_table. reflexivity. }
  apply draws_contour_table_bind. apply draws_contour_table_bind.
  do 6 apply draws_draw_bind.
  apply draws_lift_bind with (v := table ym xm
    (residual (Py.float_of_int a) (Py.float_of_int b))).
  { apply residual_surface_table. }
  apply draws_contour_table_bind.
  repeat apply draws_draw_bind. apply draws_draw.
Qed.

(** *** plot-elliptic-curve-grid.py *)

Definition grid_labels (av bv : vector) : figure :=
  flat_map (fun '(i, a) =>
    flat_map (fun '(j, b) =>
      (if Nat.eqb i 0 then [SetTitle (Axes i j) ("b=" ++ Py.format_0f b)] else [])
      ++ (if Nat.eqb j 0 then [SetYLabel (Axes i j) ("a=" ++ Py.format_0f a)] else []))
      (PlotEllipticCurveGrid.enumerate bv))
    (PlotEllipticCurveGrid.enumerate av).

Definition grid_curves (av bv : vector) (ym xm : Z) : figure :=
  flat_map (fun '(i, a) =>
    flat_map (fun '(j, b) =>
      [Contour (Axes i j) (grid_xs xm) (grid_ys ym) (table ym xm (residual a b)) [0]
         "royalblue";
       Grid (Axes i j)])
      (PlotEllipticCurveGrid.enumerate bv))
    (PlotEllipticCurveGrid.enumerate av).

Definition plot_elliptic_curve_grid_figure (av bv : vector) (ym xm : Z) : figure :=
  Subplots 4 4 (15, 15)%Z "col" "row"
  :: (grid_labels av bv ++ (grid_curves av bv ym xm ++ [TightLayout])).

Lemma length_enumerate (v : vector) :
  length (PlotEllipticCurveGrid.enumerate v) = length v.
Proof.
  unfold PlotEllipticCurveGrid.enumerate.
  rewrite length_combine, length_seq. apply Nat.min_id.
Qed.

Lemma In_combine_seq (v : vector) (s i : nat) (a : float) :
  In (i, a) (combine (seq s (length v)) v) <->
  (s <= i)%nat /\ nth_error v (i - s) = Some a.
Proof.
  revert s. induction v as [| u v IH]; intros s; cbn [length seq combine In].
  - split; [intros [] | intros [_ H]]. destruct (i - s)%nat; discriminate H.
  - rewrite IH. split.
    + intros [E | [Hs H]].
      * injection E as <- <-. split; [lia |]. now rewrite Nat.sub_diag.
      * split; [lia |]. replace (i - s)%nat with (S (i - S s)) by lia. exact H.
    + intros [Hs H]. destruct (Nat.eq_dec s i) as [<- | Hne].
      * left. rewrite Nat.sub_diag in H. cbn in H. now injection H as ->.
      * right. split; [lia |].
        replace (i - s)%nat with (S (i - S s)) in H by lia. exact H.
Qed.

Lemma In_enumerate (v : vector) (i : nat) (a : float) :
  In (i, a) (PlotEllipticCurveGrid.enumerate v) <-> nth_error v i = Some a.
Proof.
  unfold PlotEllipticCurveGrid.enumerate. rewrite In_combine_seq.
  rewrite Nat.sub_0_r. split; [now intros [_ H] | intros H; split; [lia | exact H]].
Qed.

Lemma enumerate_lt (v : vector) (i : nat) (a : float) :
  In (i, a) (PlotEllipticCurveGrid.enumerate v) -> (i < length v)%nat.
Proof.
  intros H. apply In_enumerate in H. apply nth_error_Some. now rewrite H.
Qed.

(** Within the 4 x 4 array the subscript is the subplot at that place. *)
Lemma axes_at_lt (i j : nat) :
  (i < 4)%nat -> (j < 4)%nat -> PlotEllipticCurveGrid.axes_at i j = Ok (Axes i j).
Proof.
  intros Hi Hj. unfold PlotEllipticCurveGrid.axes_at, subplot.
  apply Nat.ltb_lt in Hi. apply Nat.ltb_lt in Hj. now rewrite Hi, Hj.
Qed.

Lemma label_axes_draws (av bv : vector) :
  (length av <= 4)%nat -> (length bv <= 4)%nat ->
  draws (PlotEllipticCurveGrid.label_axes av bv) (grid_labels av bv).
Proof.
  intros Ha Hb. unfold PlotEllipticCurveGrid.label_axes, grid_labels.
  apply draws_for_each. intros [i a] Hi. apply enumerate_lt in Hi.
  apply draws_for_each. intros [j b] Hj. apply enumerate_lt in Hj.
  apply draws_bind; apply draws_when;
    (eapply draws_lift_bind; [apply axes_at_lt; lia | apply draws_draw]).
Qed.

Lemma plot_curves_draws (av bv : vector) (ym xm : Z) :
  (length av <= 4)%nat -> (length bv <= 4)%nat ->
  draws (PlotEllipticCurveGrid.plot_curves av bv ym xm) (grid_curves av bv ym xm).
Proof.
  intros Ha Hb. unfold PlotEllipticCurveGrid.plot_curves, grid_curves.
  apply draws_for_each. intros [i a] Hi. apply enumerate_lt in Hi.
  apply draws_for_each. intros [j b] Hj. apply enumerate_lt in Hj.
  apply draws_lift_bind with (v := table ym xm (residual a b)).
  { apply residual_surface_table. }
  eapply draws_lift_bind; [apply axes_at_lt; lia |].
  apply draws_contour_table_bind.
  eapply draws_lift_bind; [apply axes_at_lt; lia | apply draws_draw].
Qed.

Lemma plot_elliptic_curve_grid_build_draws (av bv : vector) (ym xm : Z) :
  (length av <= 4)%nat -> (length bv <= 4)%nat ->
  draws (PlotEllipticCurveGrid.build av bv ym xm)
        (plot_elliptic_curve_grid_figure av bv ym xm).
Proof.
  intros Ha Hb.
  unfold PlotEllipticCurveGrid.build, plot_elliptic_curve_grid_figure.
  apply draws_draw_bind. apply draws_bind; [now apply label_axes_draws |].
  apply draws_bind; [now apply plot_curves_draws | apply draws_draw].
Qed.

Lemma values_fit (v : PlotEllipticCurveGrid.values) : (length v <= 4)%nat.
Proof. apply Nat.leb_le. apply PlotEllipticCurveGrid.fits. Qed.

(** *** point-addition.py *)

Definition point_addition_figure (a b xm ym : Z) : figure :=
  let P := PointAddition.P a b in
  let Q := PointAddition.Q a b in
  [Subplots 1 1 (8, 6)%Z "none" "none";
   SetTitle (Axes 0 0) "Point addition";
   Contour (Axes 0 0) (grid_xs xm) (grid_ys ym)
     (table ym xm (residual (Py.float_of_int a) (Py.float_of_int b))) [0] "royalblue";
   SetXLabel (Axes 0 0) "x"; SetYLabel (Axes 0 0) "y";
   SetYLim (Axes 0 0) (Py.float_of_int ym) (Py.float_of_int (- ym));
   AxHLine (Axes 0 0); AxVLine (Axes 0 0); Grid (Axes 0 0);
   Plot (Axes 0 0) [Py.float_of_int (fst P)] [snd P] "ro" "P";
   Plot (Axes 0 0) [Py.float_of_int (fst Q)] [snd Q] "go" "Q";
   Plot (Axes 0 0) [Py.float_of_int (fst P); Py.float_of_int (fst Q)]
     [snd P; snd Q] "k--" "P + Q";
   Legend (Axes 0 0);
   TightLayout].

Lemma point_addition_build_draws (a b xm ym : Z) :
  draws (PointAddition.build a b xm ym) (point_addition_figure a b xm ym).
Proof.
  unfold PointAddition.build, point_addition_figure. cbv zeta.
  do 2 apply draws_draw_bind.
  apply draws_lift_bind with (v := table ym xm
    (residual (Py.float_of_int a) (Py.float_of_int b))).
  { apply residual_surface_table. }
  apply draws_contour_table_bind.
  repeat apply draws_draw_bind. apply draws_draw.
Qed.

(** *** All four *)

Definition figure_of (p : program) : figure :=
  match p with
  | CubicToEllipticCurve a b ym xm ps => cubic_to_elliptic_figure a b ym xm ps
  | PlotEllipticCurve a b ym xm => plot_elliptic_curve_figure a b ym xm
  | PlotEllipticCurveGrid av bv ym xm => plot_elliptic_curve_grid_figure av bv ym xm
  | PointAdditionPlot a b xm ym => point_addition_figure a b xm ym
  end.

(** Building the figure never raises: the grids broadcast, the contour
    inputs have matching shapes, every index of the annotation loop is in
    range and every subscript of the grid script falls within its 4 x 4
    array of subplots. *)
Lemma build_draws (p : program) : draws (build_of p) (figure_of p).
Proof.
  destruct p; cbn [build_of figure_of].
  - apply cubic_to_elliptic_build_draws.
  - apply plot_elliptic_curve_build_draws.
  - apply plot_elliptic_curve_grid_build_draws; apply values_fit.
  - apply point_addition_build_draws.
Qed.

End Figures.

(** ** Saving and showing *)

Section Persisting.

Open Scope string_scope.
Open Scope list_scope.

(** The file found under a path. *)
Fixpoint read_file (p : string) (fs : list (string * image)) : option image :=
  match fs with
  | [] => None
  | (q, img) :: t => if q =? p then Some img else read_file p t
  end.

Lemma read_write_same (p : string) (img : image) (fs : list (string * image)) :
  read_file p (write_file p img fs) = Some img.
Proof.
  induction fs as [| [q old] t IH]; cbn [write_file read_file].
  - now rewrite String.eqb_refl.
  - destruct (q =? p) eqn:E; cbn [read_file].
    + now rewrite String.eqb_refl.
    + now rewrite E.
Qed.

Lemma read_write_other (p q : string) (img : image) (fs : list (string * image)) :
  p <> q -> read_file p (write_file q img fs) = read_file p fs.
Proof.
  intros Hpq. induction fs as [| [r old] t IH]; cbn [write_file read_file].
  - destruct (q =? p) eqn:E; [apply String.eqb_eq in E; congruence | reflexivity].
  - destruct (r =? q) eqn:E; cbn [read_file].
    + apply String.eqb_eq in E. subst r.
      destruct (q =? p) eqn:E'; [apply String.eqb_eq in E'; congruence | reflexivity].
    + destruct (r =? p); [reflexivity | exact IH].
Qed.

(** Writing again what a path already holds changes nothing. *)
Lemma write_file_same (p : string) (img : image) (fs : list (string * image)) :
  read_file p fs = Some img -> write_file p img fs = fs.
Proof.
  induction fs as [| [q old] t IH]; cbn [write_file read_file]; [discriminate |].
  destruct (q =? p) eqn:E.
  - apply String.eqb_eq in E. intros [= ->]. now subst.
  - intros H. now rewrite IH.
Qed.

Definition has_dir (ds : list string) (d : string) : bool :=
  (d =? "") || existsb (String.eqb d) ds.

Lemma has_dir_In (ds : list string) (d : string) : In d ds -> has_dir ds d = true.
Proof.
  intros H. unfold has_dir. apply orb_true_iff. right.
  apply existsb_exists. exists d. split; [exact H | apply String.eqb_refl].
Qed.

Lemma savefig_written (path ext : string) (f : format) (w : world) :
  Path.extension path = Some ext ->
  format_of_extension ext = Some f ->
  has_dir (dirs w) (Path.dirname path) = true ->
  savefig path w
  = (Ok tt, World (fig w) (dirs w)
                  (write_file path (Image f (fig w)) (files w))
                  (timeline w ++ [Wrote path (Image f (fig w))])).
Proof.
  intros He Hf Hd. unfold savefig. rewrite He, Hf.
  unfold dir_exists. fold (has_dir (dirs w) (Path.dirname path)).
  now rewrite Hd.
Qed.

Lemma savefig_no_directory (path ext : string) (f : format) (w : world) :
  Path.extension path = Some ext ->
  format_of_extension ext = Some f ->
  has_dir (dirs w) (Path.dirname path) = false ->
  savefig path w = (Raise (FileNotFoundError path), w).
Proof.
  intros He Hf Hd. unfold savefig. rewrite He, Hf.
  unfold dir_exists. fold (has_dir (dirs w) (Path.dirname path)).
  now rewrite Hd.
Qed.

(** The shape of the three saving scripts: build, save as PNG, save as
    SVG, show. *)
Section SaveAndShow.

Variables (build : M unit) (F : figure) (png svg d : string).
Hypothesis build_ok : draws build F.
Hypothesis png_ext : Path.extension png = Some "png".
Hypothesis svg_ext : Path.extension svg = Some "svg".
Hypothesis png_dir : Path.dirname png = d.
Hypothesis svg_dir : Path.dirname svg = d.

Lemma run_save_and_show (ds : list string) (fs : list (string * image)) :
  has_dir ds d = true ->
  run (build ;; savefig png ;; savefig svg ;; show)%plt ds fs
  = (Ok tt,
     World F ds
           (write_file svg (Image SVG F) (write_file png (Image PNG F) fs))
           [Wrote png (Image PNG F); Wrote svg (Image SVG F); Displayed F]).
Proof.
  intros Hd. unfold run, bind. rewrite build_ok.
  cbn [fig app set_fig dirs files timeline].
  rewrite (@savefig_written png "png" PNG); cbn [dirs];
    [| exact png_ext | reflexivity | now rewrite png_dir].
  cbn [fig dirs files timeline].
  rewrite (@savefig_written svg "svg" SVG); cbn [dirs];
    [| exact svg_ext | reflexivity | now rewrite svg_dir].
  reflexivity.
Qed.

Lemma run_save_and_show_no_directory (ds : list string)
      (fs : list (string * image)) :
  has_dir ds d = false ->
  run (build ;; savefig png ;; savefig svg ;; show)%plt ds fs
  = (Raise (FileNotFoundError png), World F ds fs []).
Proof.
  intros Hd. unfold run, bind. rewrite build_ok.
  cbn [fig app set_fig dirs files timeline].
  rewrite (@savefig_no_directory png "png" PNG); cbn [dirs];
    [| exact png_ext | reflexivity | now rewrite png_dir].
  reflexivity.
Qed.

End SaveAndShow.

Lemma run_build_and_show (build : M unit) (F : figure)
      (ds : list string) (fs : list (string * image)) :
  draws build F ->
  run (build ;; show)%plt ds fs = (Ok tt, World F ds fs [Displayed F]).
Proof. intros H. unfold run, bind. rewrite H. reflexivity. Qed.

(** The output directory of the saving scripts. *)
Definition docs_images : string := "docs/images".

(** The paths a program saves to: none for [point-addition.py]. *)
Definition saved_paths (p : program) : list string :=
  match p with
  | CubicToEllipticCurve _ _ _ _ _ =>
      ["docs/images/cubic-to-elliptic.png"; "docs/images/cubic-to-elliptic.svg"]
  | PlotEllipticCurve _ _ _ _ =>
      ["docs/images/both_curves.png"; "docs/images/both_curves.svg"]
  | PlotEllipticCurveGrid _ _ _ _ =>
      ["docs/images/elliptic_curves_grid.png"; "docs/images/elliptic_curves_grid.svg"]
  | PointAdditionPlot _ _ _ _ => []
  end.

(** The complete behaviour of a run, by cases on the program and on the
    presence of [docs/images]. *)
Definition expected_run (p : program) (ds : list string)
           (fs : list (string * image)) : result unit * world :=
  let F := figure_of p in
  match saved_paths p with
  | [png; svg] =>
      if has_dir ds docs_images then
        (Ok tt,
         World F ds
               (write_file svg (Image SVG F) (write_file png (Image PNG F) fs))
               [Wrote png (Image PNG F); Wrote svg (Image SVG F); Displayed F])
      else (Raise (FileNotFoundError png), World F ds fs [])
  | _ => (Ok tt, World F ds fs [Displayed F])
  end.

Lemma run_saving_script (build : M unit) (F : figure) (png svg : string)
      (ds : list string) (fs : list (string * image)) :
  draws build F ->
  Path.extension png = Some "png" -> Path.extension svg = Some "svg" ->
  Path.dirname png = docs_images -> Path.dirname svg = docs_images ->
  run (build ;; savefig png ;; savefig svg ;; show)%plt ds fs
  = if has_dir ds docs_images then
      (Ok tt,
       World F ds
             (write_file svg (Image SVG F) (write_file png (Image PNG F) fs))
             [Wrote png (Image PNG F); Wrote svg (Image SVG F); Displayed F])
    else (Raise (FileNotFoundError png), World F ds fs []).
Proof.
  intros Hb H1 H2 H3 H4. destruct (has_dir ds docs_images) eqn:Hd.
  - exact (@run_save_and_show build F png svg docs_images Hb H1 H2 H3 H4 ds fs Hd).
  - exact (@run_save_and_show_no_directory build F png svg docs_images Hb H1 H3
             ds fs Hd).
Qed.

Lemma run_script_of (p : program) (ds : list string) (fs : list (string * image)) :
  run (script_of p) ds fs = expected_run p ds fs.
Proof.
  unfold expected_run.
  destruct p as [a b ym xm ps | a b ym xm | av bv ym xm | a b xm ym];
    cbn [script_of saved_paths figure_of].
  - unfold CubicToElliptic.script.
    apply (@run_saving_script (CubicToElliptic.build a b ym xm ps) _ _ _ ds fs
             (cubic_to_elliptic_build_draws a b ym xm ps)); reflexivity.
  - unfold PlotEllipticCurve.script.
    apply (@run_saving_script (PlotEllipticCurve.build a b ym xm) _ _ _ ds fs
             (plot_elliptic_curve_build_draws a b ym xm)); reflexivity.
  - unfold PlotEllipticCurveGrid.script.
    apply (@run_saving_script (PlotEllipticCurveGrid.build av bv ym xm) _ _ _ ds fs
             (@plot_elliptic_curve_grid_build_draws av bv ym xm (values_fit av)
                (values_fit bv)));
      reflexivity.
  - unfold PointAddition.script.
    apply run_build_and_show. apply point_addition_build_draws.
Qed.

End Persisting.

(** ** Persisting the figure (C3) *)

Section SavingClaims.

Open Scope string_scope.
Open Scope list_scope.

(** The run of [p] in the directories [ds] with the files [fs] ends
    normally, having written the finished figure to [png] as PNG and to
    [svg] as SVG, in this order, and then displayed it; both files are on
    disk afterwards. *)
Definition saves_then_shows (p : program) (ds : list string)
           (fs : list (string * image)) (png svg : string) : Prop :=
  let out := run (script_of p) ds fs in
  let F := figure_of p in
  fst out = Ok tt /\
  fig (snd out) = F /\
  timeline (snd out) = [Wrote png (Image PNG F); Wrote svg (Image SVG F); Displayed F] /\
  read_file png (files (snd out)) = Some (Image PNG F) /\
  read_file svg (files (snd out)) = Some (Image SVG F) /\
  kind_of PNG = Raster /\ kind_of SVG = Vector.

(** The run only displays the finished figure: nothing is written. *)
Definition only_shows (p : program) (ds : list string)
           (fs : list (string * image)) : Prop :=
  let out := run (script_of p) ds fs in
  fst out = Ok tt /\
  fig (snd out) = figure_of p /\
  timeline (snd out) = [Displayed (figure_of p)] /\
  files (snd out) = fs.

(** The claim as the specification words it, for one program: wherever
    [docs/images] exists, the run saves to some two paths and then
    shows. *)
Definition persists_png_and_svg (p : program) : Prop :=
  forall ds fs, In docs_images ds ->
    exists png svg, saves_then_shows p ds fs png svg.

(** What the four scripts do about saving, in a given environment. *)
Definition saving_behaviour (ds : list string) (fs : list (string * image)) : Prop :=
  (forall a b ym xm ps,
      saves_then_shows (CubicToEllipticCurve a b ym xm ps) ds fs
        "docs/images/cubic-to-elliptic.png" "docs/images/cubic-to-elliptic.svg") /\
  (forall a b ym xm,
      saves_then_shows (PlotEllipticCurve a b ym xm) ds fs
        "docs/images/both_curves.png" "docs/images/both_curves.svg") /\
  (forall av bv ym xm,
      saves_then_shows (PlotEllipticCurveGrid av bv ym xm) ds fs
        "docs/images/elliptic_curves_grid.png" "docs/images/elliptic_curves_grid.svg") /\
  (forall a b xm ym, only_shows (PointAdditionPlot a b xm ym) ds fs).

Lemma saves_then_shows_intro (p : program) (ds : list string)
      (fs : list (string * image)) (png svg : string) :
  saved_paths p = [png; svg] -> png <> svg -> In docs_images ds ->
  saves_then_shows p ds fs png svg.
Proof.
  intros Hp Hne Hd. unfold saves_then_shows. cbv zeta.
  rewrite run_script_of. unfold expected_run.
  rewrite Hp, (has_dir_In _ _ Hd). cbn [fst snd fig timeline files].
  repeat split.
  - rewrite read_write_other by exact Hne. apply read_write_same.
  - apply read_write_same.
Qed.

Lemma only_shows_point_addition (a b xm ym : Py.constant) (ds : list string)
      (fs : list (string * image)) :
  only_shows (PointAdditionPlot a b xm ym) ds fs.
Proof.
  unfold only_shows. cbv zeta. rewrite run_script_of.
  unfold expected_run. cbn [saved_paths fst snd fig timeline files].
  repeat split.
Qed.

End SavingClaims.

(** C3, as stated, fails: [point-addition.py] has its two [plt.savefig]
    lines commented out, so a run of it writes nothing. *)
Lemma point_addition_saves_nothing : ~ Forall persists_png_and_svg repository.
Proof.
  intros H. rewrite Forall_forall in H.
  assert (Hin : In point_addition_py repository)
    by (unfold repository; cbn [In]; auto).
  destruct (H _ Hin [docs_images] [] (or_introl eq_refl)) as [png [svg Hs]].
  destruct Hs as [_ [_ [Ht _]]].
  unfold point_addition_py in Ht. rewrite run_script_of in Ht.
  unfold expected_run in Ht. cbn [saved_paths snd timeline] in Ht.
  discriminate Ht.
Qed.

(** C3, amended.  Where [docs/images] exists, [cubic-to-elliptic-curve.py],
    [plot-elliptic-curve.py] and [plot-elliptic-curve-grid.py] each write
    the finished figure to their two fixed relative paths, first the PNG
    (raster) and then the SVG (vector), and display it afterwards;
    [point-addition.py] writes no file and only displays its figure. *)
Theorem three_scripts_save_png_svg_then_show
        (ds : list string) (fs : list (string * image)) :
  In docs_images ds -> saving_behaviour ds fs.
Proof.
  intros Hd. unfold saving_behaviour.
  split; [| split; [| split]].
  - intros a b ym xm ps.
    apply saves_then_shows_intro; [reflexivity | discriminate | exact Hd].
  - intros a b ym xm.
    apply saves_then_shows_intro; [reflexivity | discriminate | exact Hd].
  - intros av bv ym xm.
    apply saves_then_shows_intro; [reflexivity | discriminate | exact Hd].
  - intros a b xm ym. apply only_shows_point_addition.
Qed.

Lemma three_scripts_save_png_svg_then_show_witness :
  In docs_images [docs_images] /\ saving_behaviour [docs_images] [].
Proof.
  split.
  - left. reflexivity.
  - apply (three_scripts_save_png_svg_then_show [docs_images] []).
    left. reflexivity.
Defined.

(** ** Determinism (C8) *)

Section Rerun.

Open Scope string_scope.
Open Scope list_scope.

Lemma rewrite_twice (png svg : string) (i j : image) (fs : list (string * image)) :
  png <> svg ->
  write_file svg j (write_file png i (write_file svg j (write_file png i fs)))
  = write_file svg j (write_file png i fs).
Proof.
  intros Hne.
  rewrite (@write_file_same png i (write_file svg j (write_file png i fs))).
  - apply write_file_same, read_write_same.
  - rewrite read_write_other by exact Hne. apply read_write_same.
Qed.

Lemma expected_run_again (p : program) (ds : list string)
      (fs : list (string * image)) :
  expected_run p (dirs (snd (expected_run p ds fs)))
               (files (snd (expected_run p ds fs)))
  = expected_run p ds fs.
Proof.
  unfold expected_run.
  destruct p as [a b ym xm ps | a b ym xm | av bv ym xm | a b xm ym];
    cbn [saved_paths]; try reflexivity;
    destruct (has_dir ds docs_images) eqn:Hd;
    cbn [snd dirs files]; rewrite Hd; try reflexivity;
    rewrite rewrite_twice by discriminate; reflexivity.
Qed.

Lemma expected_run_fig (p : program) (ds : list string)
      (fs : list (string * image)) :
  fig (snd (expected_run p ds fs)) = figure_of p.
Proof.
  unfold expected_run.
  destruct (saved_paths p) as [| png [| svg [| x l]]]; try reflexivity.
  destruct (has_dir ds docs_images); reflexivity.
Qed.

End Rerun.

(** C8.  A run of any of the four scripts, with any constants, is a function
    of the constants: in every environment the figure it builds (grid
    coordinates, residual surfaces, annotation points) is the same
    [figure_of p]; and running the script a second time, on the disk the
    first run left, gives the same result, the same figure, the same
    writes and display, and leaves the same files. *)
Theorem rerun_is_identical (p : program) (ds : list string)
        (fs : list (string * image)) :
  let first := run (script_of p) ds fs in
  let second := run (script_of p) (dirs (snd first)) (files (snd first)) in
  second = first /\
  fig (snd first) = figure_of p /\
  forall ds' fs', fig (snd (run (script_of p) ds' fs')) = fig (snd first).
Proof.
  cbv zeta. rewrite !run_script_of. split; [apply expected_run_again |].
  split; [apply expected_run_fig |].
  intros ds' fs'. rewrite run_script_of. now rewrite !expected_run_fig.
Qed.

(** ** The explicit branches (C4, C5) *)

Section Branches.

Open Scope float_scope.

Lemma run_returns (p : program) (ds : list string) (fs : list (string * image)) :
  In docs_images ds ->
  fst (run (script_of p) ds fs) = Ok tt /\
  fig (snd (run (script_of p) ds fs)) = figure_of p.
Proof.
  intros Hd. rewrite run_script_of. split; [| apply expected_run_fig].
  unfold expected_run. rewrite (has_dir_In _ _ Hd).
  destruct (saved_paths p) as [| png [| svg [| x l]]]; reflexivity.
Qed.

Lemma arrows_in_figure (a b ym xm : Py.constant) (ps : vector) (xi : float) :
  In xi ps ->
  let r := radicand (Py.float_of_int a) (Py.float_of_int b) xi in
  In (Annotate "" (xi, - Np.sqrt r) (xi, - r) "->" "grey")
     (figure_of (CubicToEllipticCurve a b ym xm ps)) /\
  In (Annotate "" (xi, Np.sqrt r) (xi, r) "->" "grey")
     (figure_of (CubicToEllipticCurve a b ym xm ps)).
Proof.
  intros Hin r. cbn [figure_of]. unfold cubic_to_elliptic_figure. cbv zeta.
  split; do 5 right; apply in_or_app; left;
    unfold cubic_to_elliptic_arrows; apply in_flat_map; exists xi;
    (split; [exact Hin |]); cbv zeta; cbn [In]; auto.
Qed.

Lemma point_P_in_figure (a b xm ym : Py.constant) :
  In (Plot (Axes 0 0) [Py.float_of_int (-1)]
           [Np.sqrt (Py.float_of_int (PointAddition.radicand_P a b))] "ro" "P")
     (figure_of (PointAdditionPlot a b xm ym)).
Proof.
  cbn [figure_of]. unfold point_addition_figure. cbv zeta.
  do 9 right. left. reflexivity.
Qed.

Lemma point_Q_in_figure (a b xm ym : Py.constant) :
  In (Plot (Axes 0 0) [Py.float_of_int 2]
           [Np.sqrt (Py.float_of_int (PointAddition.radicand_Q a b))] "go" "Q")
     (figure_of (PointAdditionPlot a b xm ym)).
Proof.
  cbn [figure_of]. unfold point_addition_figure. cbv zeta.
  do 10 right. left. reflexivity.
Qed.

(** What a negative radicand [r] does in the two scripts that take square
    roots. *)
Definition nan_marker_behaviour (r : float) : Prop :=
  Np.sqrt r = nan /\
  (forall (a b ym xm : Py.constant) ps xi,
      In xi ps -> radicand (Py.float_of_int a) (Py.float_of_int b) xi = r ->
      In (Annotate "" (xi, nan) (xi, - r) "->" "grey")
         (figure_of (CubicToEllipticCurve a b ym xm ps)) /\
      In (Annotate "" (xi, nan) (xi, r) "->" "grey")
         (figure_of (CubicToEllipticCurve a b ym xm ps))) /\
  (forall (a b xm ym : Py.constant),
      Py.float_of_int (PointAddition.radicand_P a b) = r ->
      In (Plot (Axes 0 0) [Py.float_of_int (-1)] [nan] "ro" "P")
         (figure_of (PointAdditionPlot a b xm ym))) /\
  (forall (a b xm ym : Py.constant),
      Py.float_of_int (PointAddition.radicand_Q a b) = r ->
      In (Plot (Axes 0 0) [Py.float_of_int 2] [nan] "go" "Q")
         (figure_of (PointAdditionPlot a b xm ym))) /\
  (forall p ds fs,
      In docs_images ds ->
      fst (run (script_of p) ds fs) = Ok tt /\
      fig (snd (run (script_of p) ds fs)) = figure_of p).

(** The arrow heads of the loop at index [i] of [x_points]. *)
Definition reflected_branches (a b : Z) (ps : vector) (i : nat) : Prop :=
  let xi := nth i ps 0 in
  exists ccp ccnp ecp,
    CubicToElliptic.cubic_curve_points a b ps = Ok ccp /\
    CubicToElliptic.cubic_curve_neg_points a b ps = Ok ccnp /\
    CubicToElliptic.elliptic_curve_points a b ps = Ok ecp /\
    exists pos neg,
      draws (CubicToElliptic.annotate_point ps ccp ccnp ecp i)
            [Annotate "" (xi, neg) (xi, nth i ccnp 0) "->" "grey";
             Annotate "" (xi, pos) (xi, nth i ccp 0) "->" "grey"] /\
      pos = Np.sqrt (radicand (Py.float_of_int a) (Py.float_of_int b) xi) /\
      neg = - pos /\ pos <> nan /\ neg <> nan.

End Branches.

(** C4.  For every abscissa [x] of [x_points] whose radicand
    [x^3 + a x + b] is not negative, the two arrows drawn for it end at
    [(x, neg)] and [(x, pos)] with [pos] the square root of the radicand and
    [neg = - pos]: the negative branch is the positive one reflected across
    [y = 0], and both are numbers. *)
Theorem explicit_branches_are_reflections (a b : Z) (ps : vector) (i : nat) :
  (i < length ps)%nat ->
  (0 <=? radicand (Py.float_of_int a) (Py.float_of_int b) (nth i ps 0%float))%float = true ->
  reflected_branches a b ps i.
Proof.
  intros Hi Hr. unfold reflected_branches. cbv zeta.
  set (af := Py.float_of_int a). set (bf := Py.float_of_int b).
  exists (map (radicand af bf) ps), (neg1 (map (radicand af bf) ps)),
    (sqrt1 (map (radicand af bf) ps)).
  unfold CubicToElliptic.cubic_curve_points, CubicToElliptic.cubic_curve_neg_points,
    CubicToElliptic.elliptic_curve_points.
  rewrite radicands_eq. fold af bf. cbn [rbind].
  split; [reflexivity |]. split; [reflexivity |]. split; [reflexivity |].
  exists (Np.sqrt (radicand af bf (nth i ps 0))),
    (- Np.sqrt (radicand af bf (nth i ps 0))).
  split.
  - pose proof (@cubic_to_elliptic_annotate af bf ps i Hi) as H. cbv zeta in H.
    unfold neg1. rewrite !nth_map_lt by (now rewrite ?length_map). exact H.
  - split; [reflexivity |]. split; [reflexivity |].
    pose proof (@sqrt_nonnegative _ Hr) as Hn.
    split; [exact Hn | apply opp_not_nan; exact Hn].
Qed.

Lemma explicit_branches_are_reflections_witness :
  (0 < length CubicToElliptic.x_points0)%nat /\
  (0 <=? radicand (Py.float_of_int CubicToElliptic.a0) (Py.float_of_int CubicToElliptic.b0)
                  (nth 0 CubicToElliptic.x_points0 0%float))%float = true /\
  reflected_branches CubicToElliptic.a0 CubicToElliptic.b0 CubicToElliptic.x_points0 0.
Proof.
  assert (H1 : (0 < length CubicToElliptic.x_points0)%nat) by (vm_compute; lia).
  assert (H2 : (0 <=? radicand (Py.float_of_int CubicToElliptic.a0)
                        (Py.float_of_int CubicToElliptic.b0)
                        (nth 0 CubicToElliptic.x_points0 0%float))%float = true)
    by (vm_compute; reflexivity).
  split; [exact H1 |]. split; [exact H2 |].
  exact (@explicit_branches_are_reflections CubicToElliptic.a0 CubicToElliptic.b0
           CubicToElliptic.x_points0 0 H1 H2).
Defined.

(** C5.  When the radicand [r] handed to [np.sqrt] is negative, the square
    root is NaN; in [cubic-to-elliptic-curve.py] both arrows of that
    abscissa are drawn with the ordinate NaN, in [point-addition.py] the
    marker of [P] (or of [Q]) is plotted at the ordinate NaN; nothing is
    raised: whatever the constants, every script returns normally (where
    [docs/images] exists) with its complete figure. *)
Theorem negative_radicand_yields_nan_marker (r : float) :
  (r <? 0)%float = true -> nan_marker_behaviour r.
Proof.
  intros Hr. pose proof (@sqrt_negative r Hr) as Hs.
  unfold nan_marker_behaviour. split; [exact Hs |].
  split; [| split; [| split]].
  - intros a b ym xm ps xi Hin Hx.
    pose proof (@arrows_in_figure a b ym xm ps xi Hin) as H. cbv zeta in H.
    rewrite Hx in H. unfold Np.sqrt in H. rewrite Hs, opp_nan in H. exact H.
  - intros a b xm ym Hx. pose proof (point_P_in_figure a b xm ym) as H.
    rewrite Hx in H. unfold Np.sqrt in H. now rewrite Hs in H.
  - intros a b xm ym Hx. pose proof (point_Q_in_figure a b xm ym) as H.
    rewrite Hx in H. unfold Np.sqrt in H. now rewrite Hs in H.
  - intros p ds fs Hd. now apply run_returns.
Qed.

Lemma negative_radicand_yields_nan_marker_witness :
  ((-9) <? 0)%float = true /\ nan_marker_behaviour (-9)%float.
Proof.
  split.
  - reflexivity.
  - apply (@negative_radicand_yields_nan_marker (-9)%float). reflexivity.
Defined.

(** The NaN marker is reachable with other constants than the hard-coded
    ones: with [a = 0], [b = -8] the radicand of [P] is [-9]. *)
Example nan_marker_of_P_with_b_minus_8 :
  In (Plot (Axes 0 0) [Py.float_of_int (-1)] [nan] "ro" "P")
     (figure_of (PointAdditionPlot (Py.Constant 0 eq_refl) (Py.Constant (-8) eq_refl)
                                   (Py.Constant 3 eq_refl) (Py.Constant 5 eq_refl))).
Proof.
  pose proof (point_P_in_figure (Py.Constant 0 eq_refl) (Py.Constant (-8) eq_refl)
                (Py.Constant 3 eq_refl) (Py.Constant 5 eq_refl)) as H.
  cbn [Py.value] in H. unfold Np.sqrt in H.
  rewrite (@sqrt_negative (Py.float_of_int (PointAddition.radicand_P 0 (-8))) eq_refl)
    in H.
  exact H.
Qed.

(** ** Titles (C7) *)

Section Titles.

Open Scope string_scope.
Open Scope list_scope.

(** The titles a figure was given, in call order. *)
Definition titles (F : figure) : list string :=
  flat_map (fun t => match t with SetTitle _ s => [s] | _ => [] end) F.

(** The two optional terms of an equation title. *)
Definition ax_term (sep : string) (a : Z) : string :=
  if negb (a =? 0)%Z then (sep ++ Py.str a ++ "x")%string else "".
Definition constant_term (b : Z) : string :=
  if negb (b =? 0)%Z then ("- " ++ Py.str b)%string else "".

(** An equation title: a left part, then the [ax] term introduced by
    [sep], a space, and the constant term, between dollar signs. *)
Definition equation_title (lhs sep : string) (a b : Z) : string :=
  ("$" ++ (lhs ++ ax_term sep a ++ " " ++ constant_term b) ++ "$")%string.

Lemma constant_term_empty (b : Z) : constant_term b = "" <-> b = 0%Z.
Proof.
  unfold constant_term. destruct (Z.eqb_spec b 0); cbn.
  - tauto.
  - split; [discriminate | contradiction].
Qed.

Lemma ax_term_empty_minus (a : Z) : ax_term "- " a = "" <-> a = 0%Z.
Proof.
  unfold ax_term. destruct (Z.eqb_spec a 0); cbn.
  - tauto.
  - split; [discriminate | contradiction].
Qed.

Lemma ax_term_empty_space (a : Z) : ax_term " " a = "" <-> a = 0%Z.
Proof.
  unfold ax_term. destruct (Z.eqb_spec a 0); cbn.
  - tauto.
  - split; [discriminate | contradiction].
Qed.

Lemma titles_app (F G : figure) : titles (F ++ G) = titles F ++ titles G.
Proof. unfold titles. apply flat_map_app. Qed.

Lemma titles_arrows (a b : float) (ps : vector) :
  titles (cubic_to_elliptic_arrows a b ps) = [].
Proof.
  unfold cubic_to_elliptic_arrows.
  induction ps as [| xi ps IH]; [reflexivity |].
  cbn [flat_map]. rewrite titles_app, IH. reflexivity.
Qed.

Lemma titles_cubic_to_elliptic (a b ym xm : Py.constant) (ps : vector) :
  titles (figure_of (CubicToEllipticCurve a b ym xm ps))
  = [equation_title "y = x^3 " "- " a b; equation_title "y^2 = x^3 " " " a b].
Proof.
  cbn [figure_of]. unfold cubic_to_elliptic_figure. cbv zeta.
  change (titles ?F) with (flat_map (fun t => match t with SetTitle _ s => [s] | _ => [] end) F).
  cbn [flat_map app]. fold (titles (cubic_to_elliptic_arrows (Py.float_of_int a)
    (Py.float_of_int b) ps ++ [SetXLabel (Axes 0 0) "x"; SetYLabel (Axes 0 0) "y";
          SetYLim (Axes 0 0) (Py.float_of_int ym) (Py.float_of_int (- ym));
          AxHLine (Axes 0 0); AxVLine (Axes 0 0); Grid (Axes 0 0);
          SetTitle (Axes 0 0) ("$" ++ CubicToElliptic.eq_title a b ++ "$");
          TightLayout])).
  rewrite titles_app, titles_arrows. reflexivity.
Qed.

Lemma titles_plot_elliptic_curve (a b ym xm : Py.constant) :
  titles (figure_of (PlotEllipticCurve a b ym xm))
  = [equation_title "y = x^3 " "- " a b; equation_title "y^2 = x^3 " "- " a b].
Proof. reflexivity. Qed.

Lemma titles_point_addition (a b xm ym : Py.constant) :
  titles (figure_of (PointAdditionPlot a b xm ym)) = ["Point addition"].
Proof. reflexivity. Qed.

Lemma titles_grid_labels_row (i : nat) (a : float) (l : list (nat * float)) :
  titles (flat_map (fun '(j, b) =>
      (if Nat.eqb i 0 then [SetTitle (Axes i j) ("b=" ++ Py.format_0f b)] else [])
      ++ (if Nat.eqb j 0 then [SetYLabel (Axes i j) ("a=" ++ Py.format_0f a)] else [])) l)
  = if Nat.eqb i 0 then map (fun '(j, b) => ("b=" ++ Py.format_0f b)%string) l else [].
Proof.
  induction l as [| [j b] l IH]; [now destruct (Nat.eqb i 0) |].
  cbn [flat_map map]. rewrite !titles_app, IH.
  destruct (Nat.eqb i 0), (Nat.eqb j 0); reflexivity.
Qed.

Lemma titles_grid_curves_row (i : nat) (a : float) (ym xm : Z)
      (l : list (nat * float)) :
  titles (flat_map (fun '(j, b) =>
      [Contour (Axes i j) (grid_xs xm) (grid_ys ym) (table ym xm (residual a b))
         [0%float] "royalblue";
       Grid (Axes i j)]) l) = [].
Proof.
  induction l as [| [j b] l IH]; [reflexivity |].
  cbn [flat_map]. rewrite titles_app, IH. reflexivity.
Qed.

Lemma titles_grid_curves (av bv : vector) (ym xm : Z) :
  titles (grid_curves av bv ym xm) = [].
Proof.
  unfold grid_curves.
  induction (PlotEllipticCurveGrid.enumerate av) as [| [i a] l IH]; [reflexivity |].
  cbn [flat_map]. rewrite titles_app, IH, titles_grid_curves_row. reflexivity.
Qed.

(** The grid script titles the subplots of its first row with [b=...] and
    nothing else: one title for each entry of [b_values]. *)
Lemma titles_grid (a : float) (av bv : vector) (ym xm : Z) :
  titles (plot_elliptic_curve_grid_figure (a :: av) bv ym xm)
  = map (fun b => ("b=" ++ Py.format_0f b)%string) bv.
Proof.
  unfold plot_elliptic_curve_grid_figure.
  change (titles (?x :: ?F)) with (titles [x] ++ titles F).
  rewrite !titles_app, titles_grid_curves. cbn [titles flat_map app].
  rewrite app_nil_r. unfold grid_labels, PlotEllipticCurveGrid.enumerate.
  cbn [length seq combine flat_map]. rewrite titles_app, titles_grid_labels_row.
  cbn [Nat.eqb].
  assert (Hrest : forall l : list (nat * float),
    Forall (fun '(i, _) => i <> 0%nat) l ->
    titles (flat_map (fun '(i, a0) =>
      flat_map (fun '(j, b) =>
        (if Nat.eqb i 0 then [SetTitle (Axes i j) ("b=" ++ Py.format_0f b)] else [])
        ++ (if Nat.eqb j 0 then [SetYLabel (Axes i j) ("a=" ++ Py.format_0f a0)] else []))
        (combine (seq 0 (length bv)) bv)) l) = []).
  { induction l as [| [i a0] l IH]; intros Hl; [reflexivity |].
    inversion Hl as [| ? ? Hi Hl']; subst.
    cbn [flat_map]. rewrite titles_app, titles_grid_labels_row, (IH Hl').
    destruct (Nat.eqb_spec i 0); [contradiction | reflexivity]. }
  rewrite Hrest.
  - rewrite app_nil_r. clear Hrest. generalize 0%nat.
    induction bv as [| b bv IH]; intros n; [reflexivity |].
    cbn [length seq combine map]. f_equal. apply IH.
  - clear Hrest. generalize (length av). intros n.
    apply Forall_forall. intros [i a0] Hin. apply in_combine_l in Hin.
    apply in_seq in Hin. lia.
Qed.

Lemma a_values0_eq :
  PlotEllipticCurveGrid.a_values0 = [(-2)%float; (-1)%float; 0%float; 1%float].
Proof. vm_compute. reflexivity. Qed.

Lemma b_values0_eq :
  PlotEllipticCurveGrid.b_values0 = [(-1)%float; 0%float; 1%float; 2%float].
Proof. vm_compute. reflexivity. Qed.

(** The families of programs obtained by varying the coefficients [a] and
    [b] of a script and keeping its other constants; the grid script has
    no such constants and is the same program for all [a] and [b]. *)
Definition script_families : list (Py.constant -> Py.constant -> program) :=
  [ (fun a b => CubicToEllipticCurve a b (Py.Constant CubicToElliptic.y_max0 eq_refl)
                  (Py.Constant CubicToElliptic.x_max0 eq_refl) CubicToElliptic.x_points0);
    (fun a b => PlotEllipticCurve a b (Py.Constant PlotEllipticCurve.y_max0 eq_refl)
                  (Py.Constant PlotEllipticCurve.x_max0 eq_refl));
    (fun _ _ => plot_elliptic_curve_grid_py);
    (fun a b => PointAdditionPlot a b (Py.Constant PointAddition.x_max0 eq_refl)
                  (Py.Constant PointAddition.y_max0 eq_refl)) ].

(** The claim as the specification words it, for one script: whatever the
    coefficients, one of the titles it sets is an equation title that
    substitutes them. *)
Definition composes_equation_title (family : Py.constant -> Py.constant -> program)
  : Prop :=
  exists lhs sep, forall a b : Py.constant,
    In (equation_title lhs sep a b) (titles (figure_of (family a b))).

(** What the four scripts do about titles. *)
Definition omits_exactly_at_zero (sep : string) : Prop :=
  forall a, ax_term sep a = EmptyString <-> a = 0%Z.

Definition title_behaviour : Prop :=
  (exists sep1 sep2,
      omits_exactly_at_zero sep1 /\ omits_exactly_at_zero sep2 /\
      forall a b ym xm ps,
        titles (figure_of (CubicToEllipticCurve a b ym xm ps))
        = [equation_title "y = x^3 " sep1 a b; equation_title "y^2 = x^3 " sep2 a b]) /\
  (exists sep1 sep2,
      omits_exactly_at_zero sep1 /\ omits_exactly_at_zero sep2 /\
      forall a b ym xm,
        titles (figure_of (PlotEllipticCurve a b ym xm))
        = [equation_title "y = x^3 " sep1 a b; equation_title "y^2 = x^3 " sep2 a b]) /\
  (forall b, constant_term b = EmptyString <-> b = 0%Z) /\
  (forall a b xm ym,
      titles (figure_of (PointAdditionPlot a b xm ym)) = ["Point addition"]) /\
  titles (figure_of plot_elliptic_curve_grid_py) = ["b=-1"; "b=0"; "b=1"; "b=2"].

End Titles.

(** C7, as stated, fails: [point-addition.py] sets the fixed title
    ["Point addition"], in which no coefficient appears. *)
Lemma point_addition_title_is_fixed :
  ~ Forall composes_equation_title script_families.
Proof.
  intros H. rewrite Forall_forall in H.
  assert (Hin : In (fun a b => PointAdditionPlot a b
                                 (Py.Constant PointAddition.x_max0 eq_refl)
                                 (Py.Constant PointAddition.y_max0 eq_refl))
                   script_families)
    by (unfold script_families; cbn [In]; auto).
  destruct (H _ Hin) as [lhs [sep Ht]].
  specialize (Ht (Py.Constant 0 eq_refl) (Py.Constant 0 eq_refl)).
  rewrite titles_point_addition in Ht.
  destruct Ht as [Ht | []]. unfold equation_title in Ht. discriminate Ht.
Qed.

(** C7, amended.  [cubic-to-elliptic-curve.py] and
    [plot-elliptic-curve.py] each set two equation titles in which [a] and
    [b] are substituted as decimal text, the [ax] term left out exactly when
    [a = 0] and the constant term exactly when [b = 0];
    [point-addition.py] sets the fixed title ["Point addition"], and
    [plot-elliptic-curve-grid.py] titles the subplots of its first row
    [b=-1], [b=0], [b=1], [b=2]. *)
Theorem equation_titles_of_two_scripts : title_behaviour.
Proof.
  unfold title_behaviour.
  split.
  { exists "- "%string, " "%string.
    split; [exact ax_term_empty_minus |]. split; [exact ax_term_empty_space |].
    exact titles_cubic_to_elliptic. }
  split.
  { exists "- "%string, "- "%string.
    split; [exact ax_term_empty_minus |]. split; [exact ax_term_empty_minus |].
    exact titles_plot_elliptic_curve. }
  split; [exact constant_term_empty |].
  split; [exact titles_point_addition |].
  unfold plot_elliptic_curve_grid_py.
  cbn [figure_of PlotEllipticCurveGrid.entries].
  rewrite a_values0_eq, titles_grid. vm_compute. reflexivity.
Qed.

(** ** The zero contour with the hard-coded coefficients (C6) *)

Section ZeroContour.

Open Scope float_scope.

Definition has_positive (S : ndarray) : bool :=
  existsb (existsb (fun u => 0 <? u)) S.

Definition has_negative (S : ndarray) : bool :=
  existsb (existsb (fun u => u <? 0)) S.

(** The four corners of the grid cell whose upper left corner is [(i, j)]. *)
Definition corners (S : ndarray) (i j : nat) : list float :=
  [get S i j; get S i (j + 1); get S (i + 1) j; get S (i + 1) (j + 1)].

(** A contour line of level 0 passes through a cell exactly when its
    corners are not all on the same side of 0 (marching squares, as
    [ax.contour] does it): some corner is above 0, some is not. *)
Definition cell_is_cut (S : ndarray) (i j : nat) : bool :=
  existsb (fun u => 0 <? u) (corners S i j)
  && existsb (fun u => u <=? 0) (corners S i j).

Definition has_cut_cell (S : ndarray) : bool :=
  existsb (fun i => existsb (cell_is_cut S i) (seq 0 (ncols S - 1)))
          (seq 0 (nrows S - 1)).

(** The sampled residual takes both signs and the contour of level 0 has
    at least one segment. *)
Definition zero_contour_nonempty (E : result ndarray) : Prop :=
  exists S, E = Ok S /\ shape S = (100%nat, 100%nat) /\
            has_positive S = true /\ has_negative S = true /\
            has_cut_cell S = true.

(** The sampling domain [[-xm, xm] x [-ym, ym]] contains
    [[-2, 4] x [-5, 5]]. *)
Definition contains_reference_box (ym xm : Z) : Prop :=
  (- xm <= -2 /\ 4 <= xm /\ - ym <= -5 /\ 5 <= ym)%Z.

(** The same, decided on a computed array. *)
Definition zero_contour_nonempty_b (E : result ndarray) : bool :=
  match E with
  | Ok A =>
      Nat.eqb (nrows A) 100 && Nat.eqb (ncols A) 100
      && has_positive A && has_negative A && has_cut_cell A
  | Raise _ => false
  end.

Lemma zero_contour_nonempty_b_sound (E : result ndarray) :
  zero_contour_nonempty_b E = true -> zero_contour_nonempty E.
Proof.
  unfold zero_contour_nonempty_b. destruct E as [A | e]; [| discriminate].
  intros H. repeat (apply andb_true_iff in H; destruct H as [H ?]).
  apply Nat.eqb_eq in H. exists A. split; [reflexivity |].
  split; [| now repeat split].
  unfold shape. f_equal; [exact H | now apply Nat.eqb_eq].
Qed.

(** No sample is negative. *)
Definition never_negative (E : result ndarray) : bool :=
  match E with
  | Ok A => negb (has_negative A)
  | Raise _ => true
  end.

Lemma never_negative_empty (E : result ndarray) :
  never_negative E = true -> ~ zero_contour_nonempty E.
Proof.
  intros H [A [-> [_ [_ [Hn _]]]]]. cbn [never_negative] in H.
  rewrite Hn in H. discriminate H.
Qed.

(** The claim as the specification words it: on every domain that
    contains [[-2, 4] x [-5, 5]]. *)
Definition zero_contour_on_every_domain : Prop :=
  forall ym xm : Z, contains_reference_box ym xm ->
    zero_contour_nonempty (CubicToElliptic.elliptic_curve 0 7 ym xm).

(** The integer domains from the reference box to the largest one the two
    scripts sample: [5 <= y_max <= 15] and [4 <= x_max <= 9]. *)
Definition sampled_domains : list (Z * Z) :=
  flat_map (fun ym => map (fun xm => (Z.of_nat ym, Z.of_nat xm)) (seq 4 6)) (seq 5 11).

Lemma In_sampled_domains (ym xm : Z) :
  (5 <= ym <= 15)%Z -> (4 <= xm <= 9)%Z -> In (ym, xm) sampled_domains.
Proof.
  intros Hy Hx. unfold sampled_domains. apply in_flat_map.
  exists (Z.to_nat ym). split; [apply in_seq; lia |].
  apply in_map_iff. exists (Z.to_nat xm).
  split; [f_equal; lia | apply in_seq; lia].
Qed.

Lemma zero_contour_sampled_domains :
  forallb (fun '(ym, xm) =>
             zero_contour_nonempty_b (CubicToElliptic.elliptic_curve 0 7 ym xm))
          sampled_domains = true.
Proof. vm_cast_no_check (eq_refl true). Qed.

End ZeroContour.

(** C6, as stated, fails: a domain that contains [[-2, 4] x [-5, 5]] can be
    too large for 100 samples to meet the curve.  On
    [[-4, 4] x [-835, 835]] the ordinates nearest to 0 are about 8.43 away
    from it, where [y^2 > 71 >= x^3 + 7]: every sample of the residual is
    positive and the contour of level 0 is empty. *)
Lemma zero_contour_is_empty_on_a_coarse_grid : ~ zero_contour_on_every_domain.
Proof.
  intros H.
  apply (@never_negative_empty (CubicToElliptic.elliptic_curve 0 7 835 4)).
  - vm_compute. reflexivity.
  - apply H. unfold contains_reference_box. lia.
Qed.

(** C6, amended.  With [a = 0], [b = 7], on every integer domain from
    [[-4, 4] x [-5, 5]] to [[-9, 9] x [-15, 15]] (each contains
    [[-2, 4] x [-5, 5]], and the domains of [cubic-to-elliptic-curve.py] and
    [plot-elliptic-curve.py] are among them), the residual sampled on the
    100 x 100 grid takes positive and negative values, and some grid cell
    has corners on both sides of 0: the contour of level 0 is not empty. *)
Theorem zero_contour_is_nonempty_for_a0_b7 (ym xm : Z) :
  (5 <= ym <= 15)%Z -> (4 <= xm <= 9)%Z ->
  contains_reference_box ym xm /\
  zero_contour_nonempty (CubicToElliptic.elliptic_curve 0 7 ym xm) /\
  zero_contour_nonempty (PlotEllipticCurve.elliptic_curve 0 7 ym xm).
Proof.
  intros Hy Hx. split; [unfold contains_reference_box; lia |].
  pose proof zero_contour_sampled_domains as H. rewrite forallb_forall in H.
  specialize (H _ (In_sampled_domains Hy Hx)). cbv beta iota in H.
  split; apply zero_contour_nonempty_b_sound; exact H.
Qed.

Lemma zero_contour_is_nonempty_for_a0_b7_witness :
  ((5 <= CubicToElliptic.y_max0 <= 15)%Z /\ (4 <= CubicToElliptic.x_max0 <= 9)%Z /\
   CubicToElliptic.a0 = 0%Z /\ CubicToElliptic.b0 = 7%Z /\
   zero_contour_nonempty
     (CubicToElliptic.elliptic_curve CubicToElliptic.a0 CubicToElliptic.b0
        CubicToElliptic.y_max0 CubicToElliptic.x_max0)) /\
  ((5 <= PlotEllipticCurve.y_max0 <= 15)%Z /\ (4 <= PlotEllipticCurve.x_max0 <= 9)%Z /\
   PlotEllipticCurve.a0 = 0%Z /\ PlotEllipticCurve.b0 = 7%Z /\
   zero_contour_nonempty
     (PlotEllipticCurve.elliptic_curve PlotEllipticCurve.a0 PlotEllipticCurve.b0
        PlotEllipticCurve.y_max0 PlotEllipticCurve.x_max0)).
Proof.
  assert (Hy : (5 <= 15 <= 15)%Z) by lia.
  assert (H4 : (4 <= 4 <= 9)%Z) by lia.
  assert (H9 : (4 <= 9 <= 9)%Z) by lia.
  split.
  - split; [exact Hy |]. split; [exact H4 |].
    split; [reflexivity |]. split; [reflexivity |].
    exact (proj1 (proj2 (@zero_contour_is_nonempty_for_a0_b7 15 4 Hy H4))).
  - split; [exact Hy |]. split; [exact H9 |].
    split; [reflexivity |]. split; [reflexivity |].
    exact (proj2 (proj2 (@zero_contour_is_nonempty_for_a0_b7 15 9 Hy H9))).
Defined.

(** ** The radicands of the hard-coded constants (C10) *)

Section HardCodedRadicands.

Open Scope float_scope.

(** The ordinates and abscissas handed to [plt.annotate] and [ax.plot]. *)
Definition marker_coordinates (F : figure) : list float :=
  flat_map (fun t =>
              match t with
              | Annotate _ (u, v) (u', v') _ _ => [u; v; u'; v']
              | Plot _ xs ys _ _ => xs ++ ys
              | _ => []
              end) F.

(** The [k]-th value of [np.arange(-1.6, 2, 0.5)] in exact arithmetic. *)
Definition decimal_point (k : nat) : Q := Qmake (-16 + 5 * Z.of_nat k) 10.

(** Every entry of [v] is within [2^-50] of [-1.6 + 0.5 k]. *)
Definition near_decimal_points (v : vector) : bool :=
  forallb (fun k =>
             match to_Q (nth k v 0) with
             | Some q => Qle_bool (Qabs (q - decimal_point k)) (Qmake 1 (Pos.pow 2 50))
             | None => false
             end)
          (seq 0 (length v)).

Definition all_positive (v : vector) : bool := forallb (fun r => 0 <? r) v.

Definition hard_coded_radicands_positive : Prop :=
  (* cubic-to-elliptic-curve.py *)
  length CubicToElliptic.x_points0 = 8%nat /\
  near_decimal_points CubicToElliptic.x_points0 = true /\
  (exists rs,
      CubicToElliptic.radicands CubicToElliptic.a0 CubicToElliptic.b0
        CubicToElliptic.x_points0 = Ok rs /\
      rs = map (radicand 0 7) CubicToElliptic.x_points0 /\
      all_positive rs = true) /\
  (* point-addition.py *)
  PointAddition.radicand_P PointAddition.a0 PointAddition.b0 = 3%Z /\
  PointAddition.radicand_Q PointAddition.a0 PointAddition.b0 = 6%Z /\
  (0 <? Py.float_of_int 3) = true /\ (0 <? Py.float_of_int 6) = true /\
  (* no marker is NaN or infinite *)
  forallb is_finite (marker_coordinates (figure_of cubic_to_elliptic_curve_py)) = true /\
  forallb is_finite (marker_coordinates (figure_of point_addition_py)) = true /\
  length (marker_coordinates (figure_of cubic_to_elliptic_curve_py)) = 64%nat /\
  length (marker_coordinates (figure_of point_addition_py)) = 8%nat.

End HardCodedRadicands.

(** C10.  With the constants the files hard-code, every radicand handed to
    a square root is strictly positive: in [cubic-to-elliptic-curve.py] the
    eight abscissas are [-1.6, -1.1, ..., 1.9] (up to [2^-50]) and
    [x^3 + 7 > 0] at each; in [point-addition.py] the radicands are the
    integers 3 and 6.  So no marker is NaN: all 64 coordinates of the 16
    arrows and all 8 coordinates of the plotted points are finite
    numbers. *)
Theorem hard_coded_radicands_are_positive : hard_coded_radicands_positive.
Proof.
  unfold hard_coded_radicands_positive.
  split; [vm_compute; reflexivity |].
  split; [vm_compute; reflexivity |].
  split.
  { eexists. split; [apply radicands_eq |].
    split; [reflexivity | vm_compute; reflexivity]. }
  repeat split; vm_compute; reflexivity.
Qed.

(** * Further properties of the scripts *)

(** ** The disk around a run *)

Section Disk.

Open Scope string_scope.
Open Scope list_scope.

Lemma has_dir_not_In (ds : list string) :
  ~ In docs_images ds -> has_dir ds docs_images = false.
Proof.
  intros H. unfold has_dir. apply orb_false_iff. split; [reflexivity |].
  destruct (existsb (String.eqb docs_images) ds) eqn:E; [| reflexivity].
  apply existsb_exists in E. destruct E as [d [Hin Hd]].
  apply String.eqb_eq in Hd. subst d. contradiction.
Qed.

(** A script that saves names two paths, and they differ. *)
Lemma saved_paths_cases (p : program) :
  saved_paths p = [] \/
  exists png svg, saved_paths p = [png; svg] /\ png <> svg.
Proof.
  destruct p; cbn [saved_paths]; [right | right | right | left; reflexivity];
    eexists; eexists; (split; [reflexivity | discriminate]).
Qed.

Lemma files_after_run (p : program) (ds : list string) (fs : list (string * image))
      (q : string) :
  ~ In q (saved_paths p) ->
  read_file q (files (snd (expected_run p ds fs))) = read_file q fs.
Proof.
  intros Hq. unfold expected_run.
  destruct (saved_paths_cases p) as [Hp | [png [svg [Hp Hne]]]]; rewrite Hp in *.
  - reflexivity.
  - destruct (has_dir ds docs_images); cbn [snd files]; [| reflexivity].
    rewrite !read_write_other; [reflexivity | |]; intros E; apply Hq; subst;
      cbn [In]; auto.
Qed.

Lemma keys_write_file (p : string) (img : image) (fs : list (string * image)) :
  forall q, In q (map fst (write_file p img fs)) <-> q = p \/ In q (map fst fs).
Proof.
  induction fs as [| [r old] t IH]; intros q; cbn [write_file map fst In].
  - intuition.
  - destruct (r =? p) eqn:E; cbn [map fst In].
    + apply String.eqb_eq in E. subst r. intuition.
    + rewrite IH. intuition.
Qed.

Lemma NoDup_write_file (p : string) (img : image) (fs : list (string * image)) :
  NoDup (map fst fs) -> NoDup (map fst (write_file p img fs)).
Proof.
  induction fs as [| [r old] t IH]; intros H; cbn [write_file map fst].
  - constructor; [intros [] | constructor].
  - inversion H as [| ? ? Hr Ht]; subst.
    destruct (r =? p) eqn:E; cbn [map fst].
    + apply String.eqb_eq in E. subst r. now constructor.
    + constructor; [| now apply IH].
      intros Hin. apply keys_write_file in Hin. destruct Hin as [-> | Hin].
      * now rewrite String.eqb_refl in E.
      * contradiction.
Qed.

End Disk.

(** X1.  Without the directory [docs/images], each of the three saving
    scripts builds its whole figure and is then stopped by the first
    [plt.savefig], which raises [FileNotFoundError] for the PNG path: no
    file is written, neither the PNG nor the SVG, and nothing is
    displayed. *)
Theorem missing_directory_stops_at_first_savefig
        (p : program) (ds : list string) (fs : list (string * image))
        (png svg : string) :
  saved_paths p = [png; svg] -> ~ In docs_images ds ->
  run (script_of p) ds fs
  = (Raise (FileNotFoundError png), World (figure_of p) ds fs []).
Proof.
  intros Hp Hd. rewrite run_script_of. unfold expected_run.
  now rewrite Hp, (@has_dir_not_In ds Hd).
Qed.

Lemma missing_directory_stops_at_first_savefig_witness :
  saved_paths plot_elliptic_curve_py
    = ["docs/images/both_curves.png"%string; "docs/images/both_curves.svg"%string] /\
  ~ In docs_images [] /\
  run (script_of plot_elliptic_curve_py) [] []
  = (Raise (FileNotFoundError "docs/images/both_curves.png"),
     World (figure_of plot_elliptic_curve_py) [] [] []).
Proof.
  split; [reflexivity |]. split; [intros [] |].
  apply (@missing_directory_stops_at_first_savefig plot_elliptic_curve_py [] []
           "docs/images/both_curves.png"%string "docs/images/both_curves.svg"%string).
  - reflexivity.
  - intros [].
Defined.

(** X2.  A run of any of the four scripts, with any constants and in any
    environment, changes no file but the ones it saves to: every other path
    reads as before, and the set of directories is the same. *)
Theorem run_leaves_other_files_alone
        (p : program) (ds : list string) (fs : list (string * image)) (q : string) :
  ~ In q (saved_paths p) ->
  read_file q (files (snd (run (script_of p) ds fs))) = read_file q fs /\
  dirs (snd (run (script_of p) ds fs)) = ds.
Proof.
  intros Hq. rewrite run_script_of. split; [now apply files_after_run |].
  unfold expected_run.
  destruct (saved_paths p) as [| png [| svg [| x l]]]; try reflexivity.
  destruct (has_dir ds docs_images); reflexivity.
Qed.

Lemma run_leaves_other_files_alone_witness :
  ~ In "README.md"%string (saved_paths cubic_to_elliptic_curve_py) /\
  read_file "README.md"
    (files (snd (run (script_of cubic_to_elliptic_curve_py) [docs_images] [])))
  = read_file "README.md" [] /\
  dirs (snd (run (script_of cubic_to_elliptic_curve_py) [docs_images] []))
  = [docs_images].
Proof.
  assert (H : ~ In "README.md"%string (saved_paths cubic_to_elliptic_curve_py)).
  { cbn [saved_paths cubic_to_elliptic_curve_py In].
    intros [E | [E | []]]; discriminate E. }
  split; [exact H |].
  exact (@run_leaves_other_files_alone cubic_to_elliptic_curve_py [docs_images] []
           "README.md"%string H).
Defined.

(** X3.  Saving replaces a file in place: when no path occurs twice on the
    disk before a run, none does after it, whatever the script and its
    constants.  Where [docs/images] exists the paths on the disk afterwards
    are exactly the ones before together with the paths the script saves
    to, each of which is then present; where it does not exist the disk is
    left as it was. *)
Theorem run_keeps_paths_distinct
        (p : program) (ds : list string) (fs : list (string * image)) :
  NoDup (map fst fs) ->
  let after := files (snd (run (script_of p) ds fs)) in
  NoDup (map fst after) /\
  (In docs_images ds ->
   forall q, In q (map fst after) <-> In q (saved_paths p) \/ In q (map fst fs)) /\
  (~ In docs_images ds -> after = fs).
Proof.
  intros H. cbv zeta. rewrite run_script_of. unfold expected_run.
  destruct (saved_paths_cases p) as [Hp | [png [svg [Hp Hne]]]]; rewrite Hp.
  - cbn [snd files In]. split; [exact H |]. split; [| reflexivity].
    intros _ q. tauto.
  - split; [| split].
    + destruct (has_dir ds docs_images); cbn [snd files]; [| exact H].
      now do 2 apply NoDup_write_file.
    + intros Hd q. rewrite (has_dir_In _ _ Hd). cbn [snd files In].
      rewrite !keys_write_file. intuition congruence.
    + intros Hd. now rewrite (@has_dir_not_In ds Hd).
Qed.

Lemma run_keeps_paths_distinct_witness :
  NoDup (map fst (@nil (string * image))) /\
  let after := files (snd (run (script_of plot_elliptic_curve_py) [docs_images] [])) in
  NoDup (map fst after) /\
  (In docs_images [docs_images] ->
   forall q, In q (map fst after) <->
             In q (saved_paths plot_elliptic_curve_py) \/
             In q (map fst (@nil (string * image)))) /\
  (~ In docs_images [docs_images] -> after = []).
Proof.
  split; [constructor |].
  apply (@run_keeps_paths_distinct plot_elliptic_curve_py [docs_images] []). constructor.
Defined.

(** X4.  The scripts do not clobber each other: when [q] saves to none of
    the paths of [p], running [q] after [p] (where [docs/images] exists)
    leaves both images of [p] on the disk, holding the figure of [p]. *)
Theorem later_script_keeps_earlier_images
        (p q : program) (ds : list string) (fs : list (string * image))
        (png svg : string) :
  In docs_images ds ->
  saved_paths p = [png; svg] ->
  (forall x, In x (saved_paths p) -> ~ In x (saved_paths q)) ->
  let disk1 := files (snd (run (script_of p) ds fs)) in
  let disk2 := files (snd (run (script_of q) ds disk1)) in
  read_file png disk2 = Some (Image PNG (figure_of p)) /\
  read_file svg disk2 = Some (Image SVG (figure_of p)).
Proof.
  intros Hd Hp Hpq. cbv zeta. rewrite !run_script_of.
  assert (Hne : png <> svg).
  { destruct (saved_paths_cases p) as [Hp' | [png' [svg' [Hp' Hne]]]];
      rewrite Hp' in Hp; [discriminate |]. now inversion Hp; subst. }
  split.
  - rewrite files_after_run by (apply Hpq; rewrite Hp; cbn [In]; auto).
    unfold expected_run. rewrite Hp, (has_dir_In _ _ Hd). cbn [snd files].
    rewrite read_write_other by exact Hne. apply read_write_same.
  - rewrite files_after_run by (apply Hpq; rewrite Hp; cbn [In]; auto).
    unfold expected_run. rewrite Hp, (has_dir_In _ _ Hd). cbn [snd files].
    apply read_write_same.
Qed.

Lemma later_script_keeps_earlier_images_witness :
  In docs_images [docs_images] /\
  saved_paths cubic_to_elliptic_curve_py
    = ["docs/images/cubic-to-elliptic.png"%string;
       "docs/images/cubic-to-elliptic.svg"%string] /\
  (forall x, In x (saved_paths cubic_to_elliptic_curve_py) ->
             ~ In x (saved_paths plot_elliptic_curve_py)) /\
  let disk1 := files (snd (run (script_of cubic_to_elliptic_curve_py) [docs_images] [])) in
  let disk2 := files (snd (run (script_of plot_elliptic_curve_py) [docs_images] disk1)) in
  read_file "docs/images/cubic-to-elliptic.png" disk2
    = Some (Image PNG (figure_of cubic_to_elliptic_curve_py)) /\
  read_file "docs/images/cubic-to-elliptic.svg" disk2
    = Some (Image SVG (figure_of cubic_to_elliptic_curve_py)).
Proof.
  assert (H1 : In docs_images [docs_images]) by (left; reflexivity).
  assert (H3 : forall x, In x (saved_paths cubic_to_elliptic_curve_py) ->
                         ~ In x (saved_paths plot_elliptic_curve_py)).
  { intros x Hx Hy. cbn [saved_paths cubic_to_elliptic_curve_py
      plot_elliptic_curve_py In] in Hx, Hy.
    destruct Hx as [<- | [<- | []]]; destruct Hy as [E | [E | []]]; discriminate E. }
  split; [exact H1 |]. split; [reflexivity |]. split; [exact H3 |].
  exact (@later_script_keeps_earlier_images cubic_to_elliptic_curve_py
           plot_elliptic_curve_py [docs_images] []
           "docs/images/cubic-to-elliptic.png"%string
           "docs/images/cubic-to-elliptic.svg"%string H1 eq_refl H3).
Defined.

(** ** Building the figure *)

Lemma fig_after_run (p : program) (ds : list string) (fs : list (string * image)) :
  fig (snd (run (script_of p) ds fs)) = figure_of p.
Proof. rewrite run_script_of. apply expected_run_fig. Qed.

(** X5.  Whatever the constants of a script (any coefficients and bounds
    among the integer constants, any [x_points], at most four [a_values]
    and [b_values], empty ones included), building the figure returns
    normally: every broadcast is shape-compatible, every [contour] call gets
    matching inputs, every index of the annotation loop is in range and
    every subscript [axes[i, j]] falls within the 4 x 4 array.  Its whole
    effect is to append the artists of [figure_of p] to the current figure;
    directories, files and timeline are untouched. *)
Theorem build_never_raises_and_only_draws (p : program) (w : world) :
  build_of p w
  = (Ok tt, World (fig w ++ figure_of p) (dirs w) (files w) (timeline w)).
Proof. rewrite (build_draws p w). reflexivity. Qed.

(** ** The arrows of cubic-to-elliptic-curve.py *)

Section Arrows.

Open Scope float_scope.

(** The arrows of a figure, in call order. *)
Definition annotations (F : figure) : list artist :=
  flat_map (fun t => match t with Annotate _ _ _ _ _ => [t] | _ => [] end) F.

(** An arrow is vertical, and its head is the square root of its tail on
    the same side of the [x] axis. *)
Definition vertical_root_arrow (t : artist) : Prop :=
  match t with
  | Annotate _ (u, v) (u', v') _ _ =>
      u = u' /\ (v = Np.sqrt v' \/ v = - Np.sqrt (- v'))
  | _ => False
  end.

(** The abscissa of the head of an arrow. *)
Definition head_abscissa (t : artist) : list float :=
  match t with
  | Annotate _ (u, _) _ _ _ => [u]
  | _ => []
  end.

Lemma annotations_app (F G : figure) :
  annotations (F ++ G) = annotations F ++ annotations G.
Proof. unfold annotations. apply flat_map_app. Qed.

Lemma annotations_arrows (a b : float) (ps : vector) :
  annotations (cubic_to_elliptic_arrows a b ps) = cubic_to_elliptic_arrows a b ps.
Proof.
  unfold cubic_to_elliptic_arrows.
  induction ps as [| xi ps IH]; [reflexivity |].
  cbn [flat_map]. rewrite annotations_app, IH. reflexivity.
Qed.

Lemma annotations_cubic_to_elliptic (a b ym xm : Py.constant) (ps : vector) :
  annotations (figure_of (CubicToEllipticCurve a b ym xm ps))
  = cubic_to_elliptic_arrows (Py.float_of_int a) (Py.float_of_int b) ps.
Proof.
  cbn [figure_of]. unfold cubic_to_elliptic_figure. cbv zeta.
  change (annotations (?x1 :: ?x2 :: ?x3 :: ?x4 :: ?x5 :: ?F))
    with (annotations [x1; x2; x3; x4; x5] ++ annotations F).
  rewrite annotations_app, annotations_arrows. cbn [annotations flat_map app].
  now rewrite app_nil_r.
Qed.

(** The loop of lines 40-44 on the three arrays computed before it. *)
Lemma annotation_loop_draws (a b : float) (ps : vector) :
  draws (for_each (seq 0 (length ps))
           (CubicToElliptic.annotate_point ps (map (radicand a b) ps)
              (neg1 (map (radicand a b) ps)) (sqrt1 (map (radicand a b) ps))))
        (cubic_to_elliptic_arrows a b ps).
Proof.
  unfold cubic_to_elliptic_arrows.
  rewrite <- (flat_map_seq_nth
    (fun xi =>
       [Annotate "" (xi, - Np.sqrt (radicand a b xi)) (xi, - radicand a b xi) "->" "grey";
        Annotate "" (xi, Np.sqrt (radicand a b xi)) (xi, radicand a b xi) "->" "grey"])).
  apply draws_for_each. intros i Hi. apply in_seq in Hi.
  apply cubic_to_elliptic_annotate. lia.
Qed.

Lemma arrows_shape (a b : float) (ps : vector) :
  length (cubic_to_elliptic_arrows a b ps) = (2 * length ps)%nat /\
  flat_map head_abscissa (cubic_to_elliptic_arrows a b ps)
  = flat_map (fun u => [u; u]) ps /\
  Forall vertical_root_arrow (cubic_to_elliptic_arrows a b ps).
Proof.
  unfold cubic_to_elliptic_arrows.
  induction ps as [| xi ps [IH1 [IH2 IH3]]].
  - repeat split. constructor.
  - cbn [flat_map length app]. cbv zeta. rewrite IH1.
    split; [lia |]. split.
    + cbn [head_abscissa app]. f_equal. f_equal. exact IH2.
    + constructor; [| constructor; [| exact IH3]]; cbn [vertical_root_arrow].
      * split; [reflexivity |]. right. now rewrite opp_involutive.
      * split; [reflexivity |]. now left.
Qed.

End Arrows.

(** X6.  In [cubic-to-elliptic-curve.py], for any [x_points], the three
    arrays of lines 35-37 are computed without error and the loop of lines
    40-44 over [range(len(x_points))] raises nothing and draws the arrows
    [A], which are all the arrows of the figure of a run: exactly two for
    each abscissa, in the order of [x_points] (none when it is empty); every
    arrow is vertical, and its head lies at the square root of its tail's
    ordinate, mirrored for the arrow below the axis. *)
Theorem two_vertical_arrows_per_point
        (a b ym xm : Py.constant) (ps : vector)
        (ds : list string) (fs : list (string * image)) :
  exists ccp ccnp ecp A,
    CubicToElliptic.cubic_curve_points a b ps = Ok ccp /\
    CubicToElliptic.cubic_curve_neg_points a b ps = Ok ccnp /\
    CubicToElliptic.elliptic_curve_points a b ps = Ok ecp /\
    draws (for_each (seq 0 (length ps))
             (CubicToElliptic.annotate_point ps ccp ccnp ecp)) A /\
    annotations (fig (snd (run (script_of (CubicToEllipticCurve a b ym xm ps)) ds fs)))
    = A /\
    length A = (2 * length ps)%nat /\
    flat_map head_abscissa A = flat_map (fun u => [u; u]) ps /\
    Forall vertical_root_arrow A.
Proof.
  set (af := Py.float_of_int a). set (bf := Py.float_of_int b).
  exists (map (radicand af bf) ps), (neg1 (map (radicand af bf) ps)),
    (sqrt1 (map (radicand af bf) ps)), (cubic_to_elliptic_arrows af bf ps).
  unfold CubicToElliptic.cubic_curve_points, CubicToElliptic.cubic_curve_neg_points,
    CubicToElliptic.elliptic_curve_points.
  rewrite radicands_eq. fold af bf. cbn [rbind].
  split; [reflexivity |]. split; [reflexivity |]. split; [reflexivity |].
  split; [apply annotation_loop_draws |].
  split; [rewrite fig_after_run; apply annotations_cubic_to_elliptic |].
  apply arrows_shape.
Qed.

(** ** When a marker is NaN *)

Section NanMarkers.

Open Scope float_scope.



End NanMarkers.


(** ** Negative coefficients in the titles *)

Section Signs.

Open Scope string_scope.

Lemma str_negative (p : positive) :
  Py.str (Zneg p) = String "-" (Py.str (Zpos p)).
Proof. reflexivity. Qed.

Lemma string_app_assoc (s t u : string) : (s ++ t) ++ u = s ++ (t ++ u).
Proof. induction s as [| c s IH]; cbn; [reflexivity | now rewrite IH]. Qed.

(** [str] is one-to-one: the text of a coefficient determines it. *)
Lemma str_injective (m n : Z) : Py.str m = Py.str n -> m = n.
Proof.
  intros H. unfold Py.str in H.
  assert (Hi : forall z, NilZero.int_of_string (NilZero.string_of_int (Z.to_int z))
                         = Some (Z.to_int z)).
  { intros z. apply NilZero.isi; destruct z as [| p | p]; cbn; try discriminate;
      intros E; injection E as E; exact (DecimalPos.Unsigned.to_uint_nonnil p E). }
  pose proof (Hi m) as Hm. rewrite H, Hi in Hm. injection Hm as Hm.
  rewrite <- (DecimalZ.of_to m), <- (DecimalZ.of_to n). now rewrite Hm.
Qed.

End Signs.

(** X8.  The titles keep the sign of a negative coefficient after their own
    minus sign: for [b < 0] each of the four equation titles ends in
    ["- -"] followed by the digits of [|b|]. *)
Theorem negative_constant_shows_double_sign (a b : Z) :
  (b < 0)%Z ->
  exists digits,
    Py.str (- b) = digits /\
    (exists pre, CubicToElliptic.eq_title_cubic a b = pre ++ "- -" ++ digits)%string /\
    (exists pre, CubicToElliptic.eq_title a b = pre ++ "- -" ++ digits)%string /\
    (exists pre, PlotEllipticCurve.eq_title_cubic a b = pre ++ "- -" ++ digits)%string /\
    (exists pre, PlotEllipticCurve.eq_title a b = pre ++ "- -" ++ digits)%string.
Proof.
  intros Hb. destruct b as [| p | p]; try lia.
  exists (Py.str (Zpos p)). split; [reflexivity |].
  unfold CubicToElliptic.eq_title_cubic, CubicToElliptic.eq_title,
    PlotEllipticCurve.eq_title_cubic, PlotEllipticCurve.eq_title.
  change (negb (Zneg p =? 0)%Z) with true. cbv iota. rewrite str_negative.
  split; [| split; [| split]].
  - exists ("y = x^3 " ++ ax_term "- " a ++ " ")%string.
    rewrite !string_app_assoc. reflexivity.
  - exists ("y^2 = x^3 " ++ ax_term " " a ++ " ")%string.
    rewrite !string_app_assoc. reflexivity.
  - exists ("y = x^3 " ++ ax_term "- " a ++ " ")%string.
    rewrite !string_app_assoc. reflexivity.
  - exists ("y^2 = x^3 " ++ ax_term "- " a ++ " ")%string.
    rewrite !string_app_assoc. reflexivity.
Qed.

Lemma negative_constant_shows_double_sign_witness :
  (-2 < 0)%Z /\
  exists digits,
    Py.str (- -2) = digits /\
    (exists pre, CubicToElliptic.eq_title_cubic 3 (-2) = pre ++ "- -" ++ digits)%string /\
    (exists pre, CubicToElliptic.eq_title 3 (-2) = pre ++ "- -" ++ digits)%string /\
    (exists pre, PlotEllipticCurve.eq_title_cubic 3 (-2) = pre ++ "- -" ++ digits)%string /\
    (exists pre, PlotEllipticCurve.eq_title 3 (-2) = pre ++ "- -" ++ digits)%string.
Proof.
  split; [reflexivity |].
  apply (@negative_constant_shows_double_sign 3 (-2)). reflexivity.
Defined.

(** X9.  The text substituted for a coefficient determines it: two
    constant terms, or two [ax] terms with the same separator, are the same
    text only for the same coefficient. *)
Theorem title_terms_determine_coefficients (sep : string) (m n : Z) :
  (constant_term m = constant_term n -> m = n) /\
  (ax_term sep m = ax_term sep n -> m = n).
Proof.
  assert (Hlen : forall s t : string, String.length (s ++ t)
                                      = (String.length s + String.length t)%nat).
  { intros s t. induction s as [| c s IH]; cbn; [reflexivity | now rewrite IH]. }
  assert (Hhead : forall s t u : string, (s ++ t = s ++ u)%string -> t = u).
  { intros s t u. induction s as [| c s IH]; cbn; [auto |].
    intros E. injection E as E. auto. }
  assert (Htail : forall t u : string, (t ++ "x" = u ++ "x")%string -> t = u).
  { induction t as [| c t IH]; intros [| d u] E; cbn in E.
    - reflexivity.
    - injection E as _ E. destruct u; discriminate E.
    - injection E as _ E. destruct t; discriminate E.
    - injection E as -> E. f_equal. now apply IH. }
  split.
  - unfold constant_term.
    destruct (Z.eqb_spec m 0) as [-> | Hm], (Z.eqb_spec n 0) as [-> | Hn];
      cbn [negb]; intros E; try reflexivity; try discriminate E.
    apply str_injective. now apply (Hhead "- "%string).
  - unfold ax_term.
    destruct (Z.eqb_spec m 0) as [-> | Hm], (Z.eqb_spec n 0) as [-> | Hn];
      cbn [negb]; intros E; try reflexivity.
    + exfalso. apply (f_equal String.length) in E. rewrite !Hlen in E.
      cbn in E. lia.
    + exfalso. apply (f_equal String.length) in E. rewrite !Hlen in E.
      cbn in E. lia.
    + apply str_injective. apply Htail. now apply (Hhead sep).
Qed.

(** ** The subplots of plot-elliptic-curve-grid.py *)

Section GridStructure.

Open Scope string_scope.
Open Scope list_scope.

(** The contour sets of a figure and its [y] labels, in call order. *)
Definition contours (F : figure) : list artist :=
  flat_map (fun t => match t with Contour _ _ _ _ _ _ => [t] | _ => [] end) F.

Definition ylabels (F : figure) : list string :=
  flat_map (fun t => match t with SetYLabel _ s => [s] | _ => [] end) F.

Lemma flat_map_flat_map {A B C : Type} (f : B -> list C) (g : A -> list B)
      (l : list A) :
  flat_map f (flat_map g l) = flat_map (fun x => flat_map f (g x)) l.
Proof.
  induction l as [| x l IH]; [reflexivity |].
  cbn [flat_map]. now rewrite flat_map_app, IH.
Qed.

Lemma flat_map_nil {A B : Type} (g : A -> list B) (l : list A) :
  (forall x, In x l -> g x = []) -> flat_map g l = [].
Proof.
  induction l as [| x l IH]; intros H; [reflexivity |].
  cbn [flat_map]. rewrite (H x (or_introl eq_refl)), IH; [reflexivity |].
  intros y Hy. apply H. now right.
Qed.

Lemma flat_map_singletons {A B : Type} (h : A -> B) (l : list A) :
  flat_map (fun x => [h x]) l = map h l.
Proof. induction l as [| x l IH]; [reflexivity |]. cbn. now rewrite IH. Qed.

Lemma length_flat_map_const {A B : Type} (g : A -> list B) (n : nat) (l : list A) :
  (forall x, length (g x) = n) -> length (flat_map g l) = (length l * n)%nat.
Proof.
  intros H. induction l as [| x l IH]; [reflexivity |].
  cbn [flat_map length]. rewrite length_app, H, IH. lia.
Qed.

(** The contour of one subplot: the surface [S] over the grid vectors. *)
Definition subplot_contour (ym xm : Z) (i j : nat) (S : ndarray) : artist :=
  Contour (Axes i j) (ravel (PlotEllipticCurveGrid.x ym xm))
          (ravel (PlotEllipticCurveGrid.y ym xm)) S [0%float] "royalblue".

Lemma grid_vectors (ym xm : Z) :
  ravel (PlotEllipticCurveGrid.x ym xm) = grid_xs xm /\
  ravel (PlotEllipticCurveGrid.y ym xm) = grid_ys ym.
Proof.
  unfold PlotEllipticCurveGrid.x, PlotEllipticCurveGrid.y, PlotEllipticCurveGrid.grid,
    Np.ogrid. cbn [fst snd]. now rewrite ravel_row, ravel_column.
Qed.

Lemma curve_table (ym xm : Z) (a b : float) :
  PlotEllipticCurveGrid.curve ym xm a b = Ok (table ym xm (residual a b)).
Proof.
  unfold PlotEllipticCurveGrid.curve, PlotEllipticCurveGrid.curve_of,
    PlotEllipticCurveGrid.y, PlotEllipticCurveGrid.x, PlotEllipticCurveGrid.grid,
    Np.ogrid. cbn [fst snd]. apply residual_surface_table.
Qed.

Lemma contours_app (F G : figure) : contours (F ++ G) = contours F ++ contours G.
Proof. unfold contours. apply flat_map_app. Qed.

Lemma contours_grid_curves (av bv : vector) (ym xm : Z) :
  contours (grid_curves av bv ym xm)
  = flat_map (fun '(i, a) =>
                map (fun '(j, b) => subplot_contour ym xm i j (table ym xm (residual a b)))
                    (PlotEllipticCurveGrid.enumerate bv))
             (PlotEllipticCurveGrid.enumerate av).
Proof.
  unfold grid_curves, contours. rewrite flat_map_flat_map.
  apply flat_map_ext. intros [i a].
  rewrite flat_map_flat_map. rewrite <- flat_map_singletons.
  apply flat_map_ext. intros [j b]. unfold subplot_contour.
  destruct (grid_vectors ym xm) as [-> ->]. reflexivity.
Qed.

Lemma contours_grid_labels (av bv : vector) : contours (grid_labels av bv) = [].
Proof.
  unfold grid_labels, contours. rewrite flat_map_flat_map. apply flat_map_nil.
  intros [i a] _. rewrite flat_map_flat_map. apply flat_map_nil.
  intros [j b] _. rewrite flat_map_app.
  destruct (Nat.eqb i 0), (Nat.eqb j 0); reflexivity.
Qed.

Lemma contours_grid_figure (av bv : vector) (ym xm : Z) :
  contours (plot_elliptic_curve_grid_figure av bv ym xm)
  = contours (grid_curves av bv ym xm).
Proof.
  unfold plot_elliptic_curve_grid_figure.
  change (contours (?x :: ?F)) with (contours [x] ++ contours F).
  rewrite !contours_app, contours_grid_labels. cbn [contours flat_map app].
  now rewrite app_nil_r.
Qed.

Lemma ylabels_row (i : nat) (a : float) (s : nat) (bv : vector) :
  flat_map (fun t => match t with SetYLabel _ l => [l] | _ => [] end)
    (flat_map (fun '(j, b) =>
       (if Nat.eqb i 0 then [SetTitle (Axes i j) ("b=" ++ Py.format_0f b)] else [])
       ++ (if Nat.eqb j 0 then [SetYLabel (Axes i j) ("a=" ++ Py.format_0f a)] else []))
       (combine (seq s (length bv)) bv))
  = match s, bv with
    | O, _ :: _ => [("a=" ++ Py.format_0f a)%string]
    | _, _ => []
    end.
Proof.
  assert (Hrest : forall (v : vector) (n : nat),
    flat_map (fun t => match t with SetYLabel _ l => [l] | _ => [] end)
      (flat_map (fun '(j, b) =>
         (if Nat.eqb i 0 then [SetTitle (Axes i j) ("b=" ++ Py.format_0f b)] else [])
         ++ (if Nat.eqb j 0 then [SetYLabel (Axes i j) ("a=" ++ Py.format_0f a)] else []))
         (combine (seq (S n) (length v)) v)) = []).
  { induction v as [| u v IH]; intros n; [reflexivity |].
    cbn [length seq combine flat_map]. rewrite !flat_map_app, IH.
    cbn [Nat.eqb]. destruct (Nat.eqb i 0); reflexivity. }
  destruct bv as [| u v]; [now destruct s |].
  destruct s as [| n]; [| apply Hrest].
  cbn [length seq combine flat_map]. rewrite !flat_map_app, Hrest.
  cbn [Nat.eqb]. destruct (Nat.eqb i 0); reflexivity.
Qed.

Lemma ylabels_app (F G : figure) : ylabels (F ++ G) = ylabels F ++ ylabels G.
Proof. unfold ylabels. apply flat_map_app. Qed.

Lemma ylabels_grid_labels_from (av bv : vector) (n : nat) :
  ylabels (flat_map (fun '(i, a) =>
      flat_map (fun '(j, b) =>
        (if Nat.eqb i 0 then [SetTitle (Axes i j) ("b=" ++ Py.format_0f b)] else [])
        ++ (if Nat.eqb j 0 then [SetYLabel (Axes i j) ("a=" ++ Py.format_0f a)] else []))
        (PlotEllipticCurveGrid.enumerate bv))
      (combine (seq n (length av)) av))
  = match bv with
    | [] => []
    | _ :: _ => map (fun a => ("a=" ++ Py.format_0f a)%string) av
    end.
Proof.
  revert n. induction av as [| a av IH]; intros n; [now destruct bv |].
  cbn [length seq combine flat_map map]. rewrite ylabels_app, IH.
  unfold ylabels at 1. unfold PlotEllipticCurveGrid.enumerate.
  rewrite ylabels_row. destruct bv; reflexivity.
Qed.

Lemma ylabels_grid_labels (av bv : vector) :
  ylabels (grid_labels av bv)
  = match bv with
    | [] => []
    | _ :: _ => map (fun a => ("a=" ++ Py.format_0f a)%string) av
    end.
Proof. apply (ylabels_grid_labels_from av bv 0). Qed.

Lemma ylabels_grid_curves (av bv : vector) (ym xm : Z) :
  ylabels (grid_curves av bv ym xm) = [].
Proof.
  unfold grid_curves, ylabels. rewrite flat_map_flat_map. apply flat_map_nil.
  intros [i a] _. rewrite flat_map_flat_map. apply flat_map_nil.
  intros [j b] _. reflexivity.
Qed.

Lemma ylabels_grid_figure (av bv : vector) (ym xm : Z) :
  ylabels (plot_elliptic_curve_grid_figure av bv ym xm) = ylabels (grid_labels av bv).
Proof.
  unfold plot_elliptic_curve_grid_figure.
  change (ylabels (?x :: ?F)) with (ylabels [x] ++ ylabels F).
  rewrite !ylabels_app, ylabels_grid_curves.
  cbn [ylabels flat_map app]. now rewrite app_nil_r.
Qed.

Lemma titles_grid_figure (av bv : vector) (ym xm : Z) :
  titles (plot_elliptic_curve_grid_figure av bv ym xm) = titles (grid_labels av bv).
Proof.
  unfold plot_elliptic_curve_grid_figure.
  change (titles (?x :: ?F)) with (titles [x] ++ titles F).
  rewrite !titles_app, titles_grid_curves.
  cbn [titles flat_map app]. now rewrite app_nil_r.
Qed.

Lemma titles_grid_labels (av bv : vector) :
  titles (grid_labels av bv)
  = match av with
    | [] => []
    | _ :: _ => map (fun b => ("b=" ++ Py.format_0f b)%string) bv
    end.
Proof.
  destruct av as [| a av]; [reflexivity |].
  rewrite <- (titles_grid_figure (a :: av) bv 0 0). apply titles_grid.
Qed.

(** A label of the first pair of loops: a title on the first row or a
    [y] label on the first column. *)
Definition first_row_or_column (t : artist) : Prop :=
  match t with
  | SetTitle (Axes i _) _ => i = 0%nat
  | SetYLabel (Axes _ j) _ => j = 0%nat
  | _ => False
  end.

Lemma grid_labels_first_row_or_column (av bv : vector) :
  Forall first_row_or_column (grid_labels av bv).
Proof.
  unfold grid_labels. apply Forall_flat_map. apply Forall_forall. intros [i a] _.
  apply Forall_flat_map. apply Forall_forall. intros [j b] _.
  apply Forall_app. split.
  - destruct (Nat.eqb_spec i 0); constructor; [exact e | constructor].
  - destruct (Nat.eqb_spec j 0); constructor; [exact e | constructor].
Qed.

Lemma shape_table (ym xm : Z) (f : float -> float -> float) :
  shape (table ym xm f) = (resolution, resolution).
Proof.
  rewrite table_eq. unfold shape. rewrite nrows_tabulate, ncols_tabulate;
    [reflexivity | unfold resolution; lia].
Qed.

End GridStructure.

(** X10.  In [plot-elliptic-curve-grid.py], with at most four [a_values]
    and [b_values], the second pair of loops raises nothing and draws what
    are all the contours of the figure of a run: one for each pair of an
    index into [a_values] and an index into [b_values],
    [|a_values| * |b_values|] in all (none when either is empty).  The
    contour of subplot [(i, j)] is the one of [curve] with the coefficients
    [a_values[i]] and [b_values[j]], over the grid vectors [x.ravel()] and
    [y.ravel()], and there is no other contour. *)
Theorem grid_draws_one_contour_per_subplot
        (av bv : PlotEllipticCurveGrid.values) (ym xm : Py.constant)
        (ds : list string) (fs : list (string * image)) :
  exists G,
    draws (PlotEllipticCurveGrid.plot_curves av bv ym xm) G /\
    let C := contours (fig (snd (run (script_of (PlotEllipticCurveGrid av bv ym xm))
                                     ds fs))) in
    C = contours G /\
    length C = (length av * length bv)%nat /\
    forall t, In t C <->
      exists i j a b S,
        nth_error av i = Some a /\ nth_error bv j = Some b /\
        PlotEllipticCurveGrid.curve ym xm a b = Ok S /\
        t = subplot_contour ym xm i j S.
Proof.
  exists (grid_curves av bv ym xm).
  split; [apply plot_curves_draws; apply values_fit |].
  cbv zeta. rewrite fig_after_run. cbn [figure_of].
  rewrite contours_grid_figure. split; [reflexivity |].
  rewrite contours_grid_curves. split.
  - rewrite length_flat_map_const with (n := length bv).
    + now rewrite length_enumerate.
    + intros [i a]. now rewrite length_map, length_enumerate.
  - intros t. rewrite in_flat_map. split.
    + intros [[i a] [Hi Ht]]. apply in_map_iff in Ht.
      destruct Ht as [[j b] [Ht Hj]].
      exists i, j, a, b, (table ym xm (residual a b)).
      apply In_enumerate in Hi. apply In_enumerate in Hj.
      split; [exact Hi |]. split; [exact Hj |].
      split; [apply curve_table | now symmetry].
    + intros [i [j [a [b [S [Hi [Hj [HS ->]]]]]]]]. exists (i, a).
      split; [now apply In_enumerate |].
      apply in_map_iff. exists (j, b).
      rewrite curve_table in HS. injection HS as <-.
      split; [reflexivity | now apply In_enumerate].
Qed.

(** X11.  In [plot-elliptic-curve-grid.py], with at most four [a_values]
    and [b_values], the first pair of loops raises nothing and sets what are
    all the titles and [y] labels of the figure of a run: a title only on
    subplots of the first row, [b=...] for each entry of [b_values], and a
    [y] label only on subplots of the first column, [a=...] for each entry
    of [a_values]; with no [a_values] there is no title and with no
    [b_values] there is no label. *)
Theorem grid_labels_first_row_and_column
        (av bv : PlotEllipticCurveGrid.values) (ym xm : Py.constant)
        (ds : list string) (fs : list (string * image)) :
  exists L,
    draws (PlotEllipticCurveGrid.label_axes av bv) L /\
    Forall first_row_or_column L /\
    let F := fig (snd (run (script_of (PlotEllipticCurveGrid av bv ym xm)) ds fs)) in
    titles F = titles L /\
    ylabels F = ylabels L /\
    titles F = match PlotEllipticCurveGrid.entries av with
               | [] => []
               | _ :: _ => map (fun b => ("b=" ++ Py.format_0f b)%string) bv
               end /\
    ylabels F = match PlotEllipticCurveGrid.entries bv with
                | [] => []
                | _ :: _ => map (fun a => ("a=" ++ Py.format_0f a)%string) av
                end.
Proof.
  exists (grid_labels av bv).
  split; [apply label_axes_draws; apply values_fit |].
  split; [apply grid_labels_first_row_or_column |].
  cbv zeta. rewrite fig_after_run. cbn [figure_of].
  rewrite titles_grid_figure, ylabels_grid_figure.
  split; [reflexivity |]. split; [reflexivity |].
  split; [apply titles_grid_labels | apply ylabels_grid_labels].
Qed.

(** ** Every contour *)

Section ZeroLevel.

Open Scope list_scope.

(** A contour set at the single level 0, over the grid vectors of the
    bounds [(ym, xm)], of a full [resolution x resolution] surface. *)
Definition zero_level_on_grid (ym xm : Z) (t : artist) : Prop :=
  match t with
  | Contour _ X Y Zs levels _ =>
      levels = [0%float] /\ X = grid_xs xm /\ Y = grid_ys ym /\
      length X = resolution /\ length Y = resolution /\
      shape Zs = (resolution, resolution)
  | _ => False
  end.

(** How many contour sets a program draws. *)
Definition contour_count (p : program) : nat :=
  match p with
  | CubicToEllipticCurve _ _ _ _ _ => 3
  | PlotEllipticCurve _ _ _ _ => 3
  | PlotEllipticCurveGrid av bv _ _ => length av * length bv
  | PointAdditionPlot _ _ _ _ => 1
  end.

Lemma zero_level_table (ax : axes) (ym xm : Z) (f : float -> float -> float)
      (colors : string) :
  zero_level_on_grid ym xm
    (Contour ax (grid_xs xm) (grid_ys ym) (table ym xm f) [0%float] colors).
Proof.
  cbn [zero_level_on_grid]. unfold grid_xs, grid_ys.
  rewrite !length_ogrid_axis, shape_table. repeat split.
Qed.

Lemma contours_arrows (a b : float) (ps : vector) :
  contours (cubic_to_elliptic_arrows a b ps) = [].
Proof.
  unfold contours, cubic_to_elliptic_arrows. rewrite flat_map_flat_map.
  apply flat_map_nil. intros xi _. reflexivity.
Qed.

Lemma contours_cubic_to_elliptic (a b ym xm : Py.constant) (ps : vector) :
  contours (figure_of (CubicToEllipticCurve a b ym xm ps))
  = [Contour (Axes 0 0) (grid_xs xm) (grid_ys ym)
       (table ym xm (cubic_up (Py.float_of_int a) (Py.float_of_int b))) [0%float] "red";
     Contour (Axes 0 0) (grid_xs xm) (grid_ys ym)
       (table ym xm (cubic_up_neg (Py.float_of_int a) (Py.float_of_int b))) [0%float]
       "royalblue";
     Contour (Axes 0 0) (grid_xs xm) (grid_ys ym)
       (table ym xm (residual (Py.float_of_int a) (Py.float_of_int b))) [0%float]
       "black"].
Proof.
  cbn [figure_of]. unfold cubic_to_elliptic_figure. cbv zeta.
  change (contours (?x1 :: ?x2 :: ?x3 :: ?x4 :: ?x5 :: ?F))
    with (contours [x1; x2; x3; x4; x5] ++ contours F).
  rewrite contours_app, contours_arrows. reflexivity.
Qed.

Lemma contours_of_figure (p : program) :
  length (contours (figure_of p)) = contour_count p /\
  Forall (zero_level_on_grid (fst (bounds_of p)) (snd (bounds_of p)))
         (contours (figure_of p)).
Proof.
  destruct p as [a b ym xm ps | a b ym xm | av bv ym xm | a b xm ym];
    cbn [bounds_of fst snd contour_count].
  - rewrite contours_cubic_to_elliptic. split; [reflexivity |].
    repeat constructor; apply zero_level_table.
  - split; [reflexivity |].
    cbn [figure_of]. unfold plot_elliptic_curve_figure, contours. cbv zeta.
    cbn [flat_map app]. repeat constructor; apply zero_level_table.
  - cbn [figure_of]. rewrite contours_grid_figure, contours_grid_curves. split.
    + rewrite length_flat_map_const with (n := length bv).
      * now rewrite length_enumerate.
      * intros [i a]. now rewrite length_map, length_enumerate.
    + apply Forall_forall. intros t Ht. apply in_flat_map in Ht.
      destruct Ht as [[i a] [_ Ht]]. apply in_map_iff in Ht.
      destruct Ht as [[j b] [<- _]]. unfold subplot_contour.
      destruct (grid_vectors ym xm) as [-> ->]. apply zero_level_table.
  - split; [reflexivity |].
    cbn [figure_of]. unfold point_addition_figure, contours. cbv zeta.
    cbn [flat_map app]. repeat constructor; apply zero_level_table.
Qed.

End ZeroLevel.

(** X12.  Every contour on the figure of a run of any of the four scripts,
    whatever its constants and the environment, is taken at the single
    level 0, over the 100 abscissas and 100 ordinates of the script's grid,
    of a 100 x 100 surface; the scripts draw three, three,
    [|a_values| * |b_values|] (at most sixteen) and one of them. *)
Theorem every_contour_is_the_zero_level
        (p : program) (ds : list string) (fs : list (string * image)) :
  let C := contours (fig (snd (run (script_of p) ds fs))) in
  length C = contour_count p /\
  Forall (zero_level_on_grid (fst (bounds_of p)) (snd (bounds_of p))) C.
Proof. cbv zeta. rewrite fig_after_run. apply contours_of_figure. Qed.

(** ** More values than subplots *)

Section OversizedGrid.

Open Scope string_scope.
Open Scope list_scope.

(** [m] raises [e], having touched at most the figure. *)
Definition raises (m : M unit) (e : exn) : Prop :=
  forall w, exists w',
    m w = (Raise e, w') /\
    dirs w' = dirs w /\ files w' = files w /\ timeline w' = timeline w.

Lemma raises_bind (m : M unit) (k : unit -> M unit) (e : exn) :
  raises m e -> raises (bind m k) e.
Proof.
  intros H w. destruct (H w) as [w' [Hm Hw]]. exists w'.
  unfold bind. rewrite Hm. now split.
Qed.

Lemma draws_then_raises (m : M unit) (k : unit -> M unit) (l : figure) (e : exn) :
  draws m l -> raises (k tt) e -> raises (bind m k) e.
Proof.
  intros Hm Hk w. destruct (Hk (set_fig w (fig w ++ l))) as [w' [Hk' Hw]].
  exists w'. unfold bind. rewrite Hm. split; [exact Hk' | exact Hw].
Qed.

Lemma raises_lift {A : Type} (k : A -> M unit) (e : exn) :
  raises (bind (lift (Raise e)) k) e.
Proof. intros w. exists w. unfold bind, lift. now repeat split. Qed.

Lemma for_each_raises {A : Type} (l1 : list A) (x : A) (l2 : list A)
      (body : A -> M unit) (g : A -> figure) (e : exn) :
  (forall a, In a l1 -> draws (body a) (g a)) -> raises (body x) e ->
  raises (for_each (l1 ++ x :: l2) body) e.
Proof.
  intros Hd Hx. induction l1 as [| a l1 IH]; cbn [app for_each].
  - now apply raises_bind.
  - apply draws_then_raises with (l := g a); [apply Hd; now left |].
    apply IH. intros a' Ha'. apply Hd. now right.
Qed.

Lemma combine_seq_split (v : vector) (s n : nat) :
  (n < length v)%nat ->
  exists l2,
    combine (seq s (length v)) v
    = combine (seq s n) (firstn n v) ++ ((s + n)%nat, nth n v 0%float) :: l2.
Proof.
  revert s v. induction n as [| n IH]; intros s [| b t] Hn; cbn [length] in Hn; try lia.
  - cbn [length seq combine firstn nth app]. rewrite Nat.add_0_r. eexists. reflexivity.
  - destruct (IH (S s) t ltac:(lia)) as [l2 E].
    cbn [length seq combine firstn nth app]. rewrite E. exists l2.
    now rewrite Nat.add_succ_r.
Qed.

(** [enumerate v] up to, at and after the index [n]. *)
Lemma enumerate_split (v : vector) (n : nat) :
  (n < length v)%nat ->
  exists l2,
    PlotEllipticCurveGrid.enumerate v
    = combine (seq 0 n) (firstn n v) ++ (n, nth n v 0%float) :: l2.
Proof. intros Hn. apply (@combine_seq_split v 0 n Hn). Qed.

Lemma In_combine_firstn (v : vector) (n i : nat) (a : float) :
  In (i, a) (combine (seq 0 n) (firstn n v)) -> (i < n)%nat.
Proof. intros H. apply in_combine_l in H. apply in_seq in H. lia. Qed.

(** The body of the first pair of loops at [(i, j)]. *)
Definition label_body (i : nat) (a : float) (jb : nat * float) : M unit :=
  let '(j, b) := jb in
  (when (Nat.eqb i 0)
     (ax <- lift (PlotEllipticCurveGrid.axes_at i j) ;;
      draw (SetTitle ax ("b=" ++ Py.format_0f b))) ;;
   when (Nat.eqb j 0)
     (ax <- lift (PlotEllipticCurveGrid.axes_at i j) ;;
      draw (SetYLabel ax ("a=" ++ Py.format_0f a))))%plt.

Lemma label_body_draws (i j : nat) (a b : float) :
  (i < 4)%nat -> (j < 4)%nat ->
  draws (label_body i a (j, b))
        ((if Nat.eqb i 0 then [SetTitle (Axes i j) ("b=" ++ Py.format_0f b)] else [])
         ++ (if Nat.eqb j 0 then [SetYLabel (Axes i j) ("a=" ++ Py.format_0f a)] else [])).
Proof.
  intros Hi Hj. unfold label_body.
  apply draws_bind; apply draws_when;
    (eapply draws_lift_bind; [apply axes_at_lt; lia | apply draws_draw]).
Qed.

(** A fifth column on the first row: [axes[0, 4]] is out of bounds. *)
Lemma label_body_raises_column (a b : float) :
  raises (label_body 0 a (4%nat, b)) IndexError.
Proof. unfold label_body. cbn [Nat.eqb when]. apply raises_bind, raises_lift. Qed.

(** A fifth row on the first column: [axes[4, 0]] is out of bounds. *)
Lemma label_body_raises_row (a b : float) :
  raises (label_body 4 a (0%nat, b)) IndexError.
Proof.
  unfold label_body. cbn [Nat.eqb when].
  apply draws_then_raises with (l := []); [apply draws_ret | apply raises_lift].
Qed.

Lemma label_axes_raises (av bv : vector) :
  (4 < length bv)%nat /\ av <> [] \/ (4 < length av)%nat /\ bv <> [] ->
  raises (PlotEllipticCurveGrid.label_axes av bv) IndexError.
Proof.
  intros H. unfold PlotEllipticCurveGrid.label_axes.
  change (fun '(i, a) =>
            for_each (PlotEllipticCurveGrid.enumerate bv) (fun '(j, b) => ?body))
    with (fun ia : nat * float =>
            for_each (PlotEllipticCurveGrid.enumerate bv)
                     (label_body (fst ia) (snd ia))).
  destruct (Nat.ltb_spec 4 (length bv)) as [Hb | Hb].
  - (* the first row already has a fifth column *)
    assert (Ha : av <> []) by (destruct H as [[_ Ha] | [Ha _]];
      [exact Ha | destruct av; [cbn in Ha; lia | discriminate]]).
    destruct av as [| a av]; [contradiction |].
    unfold PlotEllipticCurveGrid.enumerate at 1. cbn [length seq combine for_each].
    apply raises_bind. cbn [fst snd].
    destruct (@enumerate_split bv 4 Hb) as [l2 ->].
    apply for_each_raises with
      (g := fun '(j, b) =>
              (if Nat.eqb 0 0 then [SetTitle (Axes 0 j) ("b=" ++ Py.format_0f b)] else [])
              ++ (if Nat.eqb j 0 then [SetYLabel (Axes 0 j) ("a=" ++ Py.format_0f a)]
                  else [])).
    + intros [j b] Hj. apply In_combine_firstn in Hj.
      apply (@label_body_draws 0 j a b); lia.
    + apply (label_body_raises_column a (nth 4 bv 0%float)).
  - (* four rows are labelled, the fifth is not there *)
    destruct H as [[Hb' _] | [Ha Hne]]; [lia |].
    destruct (@enumerate_split av 4 Ha) as [l2 ->].
    apply for_each_raises with
      (g := fun ia =>
              flat_map (fun '(j, b) =>
                (if Nat.eqb (fst ia) 0
                 then [SetTitle (Axes (fst ia) j) ("b=" ++ Py.format_0f b)] else [])
                ++ (if Nat.eqb j 0
                    then [SetYLabel (Axes (fst ia) j) ("a=" ++ Py.format_0f (snd ia))]
                    else []))
                (PlotEllipticCurveGrid.enumerate bv)).
    + intros [i a] Hi. apply In_combine_firstn in Hi. cbn [fst snd].
      apply draws_for_each. intros [j b] Hj. apply enumerate_lt in Hj.
      apply (@label_body_draws i j a b); lia.
    + cbn [fst snd]. destruct bv as [| b bv]; [contradiction |].
      unfold PlotEllipticCurveGrid.enumerate. cbn [length seq combine for_each].
      apply raises_bind. apply (label_body_raises_row (nth 4 av 0%float) b).
Qed.

End OversizedGrid.

(** X13.  The grid script lays its values over the 4 x 4 array of
    [plt.subplots(4, 4)] and nothing in it checks their number: with more
    than four [b_values] (and at least one of [a_values]) the first pair of
    loops runs into [axes[0, 4]], with more than four [a_values] (and at
    least one of [b_values]) into [axes[4, 0]], and the script stops on an
    [IndexError] there: no file is written and nothing is displayed. *)
Theorem oversized_grid_raises_index_error
        (av bv : vector) (ym xm : Z) (ds : list string) (fs : list (string * image)) :
  (4 < length bv)%nat /\ av <> [] \/ (4 < length av)%nat /\ bv <> [] ->
  let out := run (PlotEllipticCurveGrid.script av bv ym xm) ds fs in
  fst out = Raise IndexError /\
  dirs (snd out) = ds /\ files (snd out) = fs /\ timeline (snd out) = [].
Proof.
  intros H. cbv zeta.
  assert (Hs : raises (PlotEllipticCurveGrid.script av bv ym xm) IndexError).
  { unfold PlotEllipticCurveGrid.script, PlotEllipticCurveGrid.build.
    apply raises_bind.
    apply draws_then_raises with (l := [Subplots 4 4 (15, 15)%Z "col" "row"]);
      [apply draws_draw |].
    apply raises_bind. now apply label_axes_raises. }
  unfold run. destruct (Hs (World [] ds fs [])) as [w' [Hw [Hd [Hf Ht]]]].
  rewrite Hw. cbn [fst snd]. cbn [dirs files timeline] in Hd, Hf, Ht.
  now repeat split.
Qed.

Lemma oversized_grid_raises_index_error_witness :
  ((4 < length [1; 2; 3; 4; 5]%float)%nat /\ [0%float] <> [] \/
   (4 < length [0%float])%nat /\ [1; 2; 3; 4; 5]%float <> []) /\
  let out := run (PlotEllipticCurveGrid.script [0%float] [1; 2; 3; 4; 5]%float 5 5)
                 [docs_images] [] in
  fst out = Raise IndexError /\
  dirs (snd out) = [docs_images] /\ files (snd out) = [] /\ timeline (snd out) = [].
Proof.
  assert (H : (4 < length [1; 2; 3; 4; 5]%float)%nat /\ [0%float] <> [] \/
              (4 < length [0%float])%nat /\ [1; 2; 3; 4; 5]%float <> []).
  { left. split; [cbn; lia | discriminate]. }
  split; [exact H |].
  exact (@oversized_grid_raises_index_error [0%float] [1; 2; 3; 4; 5]%float 5 5
           [docs_images] [] H).
Defined.
